(** * PDFDetect: the image / OCR / PDF-export screen of [App.tsx]

    A shallow embedding of the component [ImageOCRPDFExporter]: its three
    pieces of React state, its handlers ([requestStoragePermission],
    [processImage], [pickImages], [generateHTMLContent], [exportToPDF],
    [clearResults]) and the touchables that trigger them.

    The native libraries the component calls (permission dialog, image
    picker, text recognition, HTML-to-PDF converter, clipboard) are not
    part of the program; they appear as a record of oracles, and every
    call to one of them is recorded in a trace next to the state. *)

From Stdlib Require Import ZArith Ascii String Lia Permutation.
From stdpp Require Import base list strings pretty.

Open Scope stdpp_scope.

(** ** Strings *)

(** The double quote and the line feed, which string literals of this
    file do not spell out. *)
Definition dq : string := String "034"%char "".
Definition nl : string := String "010"%char "".

(** ** Data model *)

(** An asset as the image picker returns it; the component reads the
    fields [uri], [type] and [base64]. *)
Record ImageAsset := {
  uri : string;
  type : string;
  base64 : string
}.

(** The three [useState] cells of the component. *)
Record SessionState := {
  selectedImages : list ImageAsset;
  extractedTexts : list string;
  loading : bool
}.

Definition initialState : SessionState :=
  {| selectedImages := []; extractedTexts := []; loading := false |}.

(** ** Collaborators *)

Inductive JsError := Error (message : string).

(** A collaborator call either returns a value or throws (for an
    asynchronous call: its promise resolves or rejects). *)
Inductive outcome (A : Type) :=
| Returns (a : A)
| Throws (e : JsError).
Arguments Returns {A} a.
Arguments Throws {A} e.

Inductive OS := android | ios | windows | macos | web.

Inductive permission := READ_EXTERNAL_STORAGE | WRITE_EXTERNAL_STORAGE.

(** [PermissionsAndroid.RESULTS]. *)
Inductive permission_status := GRANTED | DENIED | NEVER_ASK_AGAIN.

(** What [TextRecognition.recognize] resolves to, by the shape
    [processImage] tests for: an array (of lines), a string, or anything
    else. *)
Inductive OcrResult :=
| ResArray (lines : list string)
| ResString (s : string)
| ResOther.

(** The options object handed to [RNHTMLtoPDF.convert]. *)
Record ConvertOptions := {
  html : string;
  fileName : string;
  directory : string;
  height : Z;
  width : Z;
  padding : Z
}.

(** The environment of one handler run.  [launchImageLibrary] yields
    [result.assets], which is absent ([None]) when the user cancels.
    [RNHTMLtoPDF_convert] yields [pdf.filePath].  [completion_order] lists
    the indices of the recognition calls of a batch in the order in which
    their promises settle; an index that is missing from it stands for a
    call that never settles. *)
Record Collaborators := {
  Platform_OS : OS;
  PermissionsAndroid_request : permission -> outcome permission_status;
  launchImageLibrary : outcome (option (list ImageAsset));
  TextRecognition_recognize : string -> outcome OcrResult;
  completion_order : list nat;
  RNHTMLtoPDF_convert : ConvertOptions -> outcome (option string);
  Clipboard_setString : string -> outcome unit;
  Date_now : Z
}.

(** ** Traces *)

(** Everything a handler does besides computing: collaborator calls,
    notices to the user, console output and writes to the state cells. *)
Inductive event :=
| PermissionRequest (p : permission)
| LaunchImageLibrary
| Recognize (imagePath : string)
| Convert (options : ConvertOptions)
| ClipboardSetString (s : string)
| AlertAlert (title message : string)
| ConsoleError (label : string)
| SetSelectedImages (v : list ImageAsset)
| SetExtractedTexts (v : list string)
| SetLoading (v : bool).

Definition is_collaborator_call (e : event) : bool :=
  match e with
  | PermissionRequest _ | LaunchImageLibrary | Recognize _
  | Convert _ | ClipboardSetString _ => true
  | _ => false
  end.

Definition is_state_write (e : event) : bool :=
  match e with
  | SetSelectedImages _ | SetExtractedTexts _ | SetLoading _ => true
  | _ => false
  end.

Definition is_convert_call (e : event) : bool :=
  match e with Convert _ => true | _ => false end.

Definition permission_requests (tr : list event) : list permission :=
  omap (fun e => match e with PermissionRequest p => Some p | _ => None end) tr.

(** ** Handlers as state-and-trace computations *)

(** How the run of an [async] function ends: it returns, it throws, or it
    is left waiting on a promise that never settles. *)
Inductive completion (A : Type) :=
| Normal (a : A)
| Abrupt (e : JsError)
| Pending.
Arguments Normal {A} a.
Arguments Abrupt {A} e.
Arguments Pending {A}.

Definition Task (A : Type) : Type :=
  SessionState -> completion A * SessionState * list event.

Definition ret {A} (a : A) : Task A := fun st => (Normal a, st, []).

Definition bind {A B} (m : Task A) (k : A -> Task B) : Task B := fun st =>
  match m st with
  | (Normal a, st1, tr1) =>
      let '(c, st2, tr2) := k a st1 in (c, st2, tr1 ++ tr2)
  | (Abrupt e, st1, tr1) => (Abrupt e, st1, tr1)
  | (Pending, st1, tr1) => (Pending, st1, tr1)
  end.

Notation "x <- m ;; k" := (bind m (fun x => k))
  (at level 100, m at next level, right associativity).
Notation "m ;;; k" := (bind m (fun _ => k))
  (at level 100, right associativity).

(** [try { body } catch (error) { handler error }] *)
Definition try_catch {A} (body : Task A) (handler : JsError -> Task A) : Task A :=
  fun st =>
  match body st with
  | (Abrupt e, st1, tr1) =>
      let '(c, st2, tr2) := handler e st1 in (c, st2, tr1 ++ tr2)
  | r => r
  end.

(** [try { body } finally { fin }]: [fin] runs whenever control leaves
    [body], and the completion of [body] stands unless [fin] itself does
    not return. *)
Definition try_finally {A} (body : Task A) (fin : Task unit) : Task A :=
  fun st =>
  match body st with
  | (Pending, st1, tr1) => (Pending, st1, tr1)
  | (c, st1, tr1) =>
      match fin st1 with
      | (Normal _, st2, tr2) => (c, st2, tr1 ++ tr2)
      | (Abrupt e, st2, tr2) => (Abrupt e, st2, tr1 ++ tr2)
      | (Pending, st2, tr2) => (Pending, st2, tr1 ++ tr2)
      end
  end.

Definition emit (e : event) : Task unit := fun st => (Normal tt, st, [e]).

(** A collaborator call: recorded, then its outcome awaited. *)
Definition call {A} (e : event) (o : outcome A) : Task A := fun st =>
  (match o with Returns a => Normal a | Throws err => Abrupt err end, st, [e]).

Definition get {A} (f : SessionState -> A) : Task A := fun st => (Normal (f st), st, []).

Definition setSelectedImages (v : list ImageAsset) : Task unit := fun st =>
  (Normal tt,
   {| selectedImages := v; extractedTexts := extractedTexts st; loading := loading st |},
   [SetSelectedImages v]).

Definition setExtractedTexts (v : list string) : Task unit := fun st =>
  (Normal tt,
   {| selectedImages := selectedImages st; extractedTexts := v; loading := loading st |},
   [SetExtractedTexts v]).

Definition setLoading (v : bool) : Task unit := fun st =>
  (Normal tt,
   {| selectedImages := selectedImages st; extractedTexts := extractedTexts st; loading := v |},
   [SetLoading v]).

Definition Alert_alert (title message : string) : Task unit := emit (AlertAlert title message).
Definition console_error (label : string) : Task unit := emit (ConsoleError label).

(** Projections of a finished run. *)
Definition result_of {A} (r : completion A * SessionState * list event) : completion A := r.1.1.
Definition state_of {A} (r : completion A * SessionState * list event) : SessionState := r.1.2.
Definition trace_of {A} (r : completion A * SessionState * list event) : list event := r.2.

Definition completes {A} (r : completion A * SessionState * list event) : bool :=
  match result_of r with Pending => false | _ => true end.

(** ** [requestStoragePermission] *)

Definition is_granted (s : permission_status) : bool :=
  match s with GRANTED => true | _ => false end.

Definition requestStoragePermission (env : Collaborators) : Task bool :=
  try_catch
    (match Platform_OS env with
     | android =>
         readGranted <- call (PermissionRequest READ_EXTERNAL_STORAGE)
                             (PermissionsAndroid_request env READ_EXTERNAL_STORAGE) ;;
         writeGranted <- call (PermissionRequest WRITE_EXTERNAL_STORAGE)
                              (PermissionsAndroid_request env WRITE_EXTERNAL_STORAGE) ;;
         ret (is_granted readGranted && is_granted writeGranted)
     | _ => ret true
     end)
    (fun err => console_error "Error requesting permission:" ;;; ret false).

(** ** [processImage] *)

(** [Array.prototype.join]: the elements in index order, the separator
    before every element but the first. *)
Definition join_step (sep : string) : nat * string -> string -> nat * string :=
  fun '(k, R) element => (S k, (if k =? 0 then R else R +:+ sep) +:+ element).

Definition join (sep : string) (xs : list string) : string :=
  (fold_left (join_step sep) xs (0, "")).2.

(** The same text written by recursion: every element after the first is
    preceded by the separator. *)
Fixpoint separated (sep : string) (xs : list string) : string :=
  match xs with
  | [] => ""
  | x :: xs' => sep +:+ x +:+ separated sep xs'
  end.

Definition normalize (results : OcrResult) : string :=
  match results with
  | ResArray lines => join nl lines
  | ResString s => s
  | ResOther => ""
  end.

(** One run of [processImage] against the recognition oracle: the value
    its promise resolves to, or the error it rejects with. *)
Definition processImage (recognize : string -> outcome OcrResult) (imagePath : string)
  : outcome string :=
  match recognize imagePath with
  | Returns results => Returns (normalize results)
  | Throws error => Throws (Error "Không thể xử lý ảnh")
  end.

(** ** [Promise.all] *)

(** The combined promise while it runs: the array of values collected so
    far with the count of elements still awaited, or its settlement. *)
Inductive promise (A : Type) :=
| Waiting (values : list (option A)) (remaining : nat)
| Fulfilled (v : list A)
| Rejected (reason : JsError).
Arguments Waiting {A} values remaining.
Arguments Fulfilled {A} v.
Arguments Rejected {A} reason.

(** [Promise.all] over [n] input promises, before any of them settles;
    over no promise at all it is fulfilled at once with the empty array. *)
Definition Promise_all_start {A} (n : nat) : promise A :=
  if n =? 0 then Fulfilled [] else Waiting (replicate n None) n.

(** Input promise [i] settles.  A fulfilment stores its value at index [i]
    and fulfils the combined promise when it was the last one awaited; a
    rejection rejects the combined promise.  A combined promise that is
    settled stays as it is, and so does one told twice about the same
    input or about an index it does not have. *)
Definition Promise_all_settle {A} (results : list (outcome A))
    (p : promise A) (i : nat) : promise A :=
  match p with
  | Waiting values remaining =>
      match values !! i, results !! i with
      | Some None, Some (Returns x) =>
          let values' := <[i := Some x]> values in
          if remaining =? 1 then Fulfilled (omap id values')
          else Waiting values' (remaining - 1)
      | Some None, Some (Throws e) => Rejected e
      | _, _ => p
      end
  | _ => p
  end.

(** [Promise.all(promises)] where promise [i] settles with [results !! i]
    and the promises settle in the order [order]. *)
Definition Promise_all {A} (results : list (outcome A)) (order : list nat) : promise A :=
  fold_left (Promise_all_settle results) order (Promise_all_start (length results)).

Definition await {A} (p : promise A) : Task (list A) := fun st =>
  (match p with
   | Fulfilled v => Normal v
   | Rejected e => Abrupt e
   | Waiting _ _ => Pending
   end, st, []).

(** ** [pickImages] *)

(** [Promise.all(result.assets.map(asset => processImage(asset.uri)))]:
    the combined promise of the batch. *)
Definition extractAll (recognize : string -> outcome OcrResult) (order : list nat)
    (assets : list ImageAsset) : promise string :=
  Promise_all (map (fun asset => processImage recognize (uri asset)) assets) order.

Definition emit_all (es : list event) : Task unit := fun st => (Normal tt, st, es).

(** The batch as [pickImages] awaits it.  [map] starts every recognition
    call, in index order, before anything is awaited.  The trace runs up to
    the point where the combined promise settles: a rejection is preceded
    by the console output of the [processImage] run that caused it. *)
Definition awaitExtractAll (env : Collaborators) (assets : list ImageAsset)
  : Task (list string) :=
  emit_all (map (fun asset => Recognize (uri asset)) assets) ;;;
  let p := extractAll (TextRecognition_recognize env) (completion_order env) assets in
  (match p with
   | Rejected _ => console_error "Error processing image:"
   | _ => ret tt
   end) ;;;
  await p.

Definition pickImages (env : Collaborators) : Task unit :=
  try_finally
    (try_catch
       (hasPermission <- requestStoragePermission env ;;
        if negb hasPermission then
          Alert_alert "Thông báo" "Bạn cần cấp quyền để sử dụng tính năng này"
        else
          setLoading true ;;;
          result_assets <- call LaunchImageLibrary (launchImageLibrary env) ;;
          match result_assets with
          | Some assets =>
              setSelectedImages assets ;;;
              texts <- awaitExtractAll env assets ;;
              setExtractedTexts texts
          | None => ret tt
          end)
       (fun error =>
          console_error "Error picking images:" ;;;
          Alert_alert "Lỗi" "Có lỗi xảy ra khi xử lý ảnh"))
    (setLoading false).

(** ** [generateHTMLContent] *)

Definition htmlHead : string := "
      <!DOCTYPE html>
      <html>
        <head>
          <style>
            body { margin: 0; padding: 0; }
            .page { 
              page-break-after: always;
              margin: 0;
              padding: 0;
              width: 100%;
              height: 100%;
              display: flex;
              justify-content: center;
              align-items: center;
            }
            .page:last-child { page-break-after: auto; }
            img {
              max-width: 100%;
              max-height: 100%;
              object-fit: contain;
            }
          </style>
        </head>
        <body>
    ".

Definition htmlTail : string := "
        </body>
      </html>
    ".

(** The template literal appended for one image. *)
Definition pageTemplate (image : ImageAsset) : string :=
  "
        <div class=" +:+ dq +:+ "page" +:+ dq +:+ ">
          <img src=" +:+ dq +:+ "data:" +:+ type image +:+ ";base64," +:+ base64 image +:+ dq +:+ " />
        </div>
      ".

(** [htmlContent] starts as the head, grows by one template per image in
    [forEach] order, and ends with the tail. *)
Definition generateHTMLContent (selectedImages : list ImageAsset) : string :=
  let htmlContent := htmlHead in
  let htmlContent :=
    fold_left (fun htmlContent image => htmlContent +:+ pageTemplate image)
              selectedImages htmlContent in
  htmlContent +:+ htmlTail.

(** ** [exportToPDF] *)

(** JavaScript truthiness of [pdf.filePath]: present and not empty. *)
Definition truthy_path (filePath : option string) : option string :=
  match filePath with
  | Some p => if decide (p = "") then None else Some p
  | None => None
  end.

Definition exportOptions (env : Collaborators) (htmlContent : string) : ConvertOptions :=
  {| html := htmlContent;
     fileName := "images_" +:+ pretty (Date_now env);
     directory := match Platform_OS env with ios => "Documents" | _ => "Download" end;
     height := 842;
     width := 595;
     padding := 0 |}.

Definition exportToPDF (env : Collaborators) : Task unit :=
  try_finally
    (try_catch
       (images <- get selectedImages ;;
        if length images =? 0 then
          Alert_alert "Thông báo" "Vui lòng chọn ít nhất một ảnh"
        else
          setLoading true ;;;
          let htmlContent := generateHTMLContent images in
          let options := exportOptions env htmlContent in
          pdf_filePath <- call (Convert options) (RNHTMLtoPDF_convert env options) ;;
          match truthy_path pdf_filePath with
          | Some filePath =>
              Alert_alert "Thành công" ("File PDF đã được lưu tại:" +:+ nl +:+ filePath) ;;;
              call (ClipboardSetString filePath) (Clipboard_setString env filePath)
          | None => ret tt
          end)
       (fun error =>
          console_error "Error exporting PDF:" ;;;
          Alert_alert "Lỗi" "Không thể tạo file PDF"))
    (setLoading false).

(** ** [clearResults] *)

Definition clearResults : Task unit :=
  setSelectedImages [] ;;; setExtractedTexts [].

(** ** The rendered controls *)

Inductive control := PickButton | ExportButton | ClearButton.

(** The [disabled] prop of each touchable. *)
Definition disabled (st : SessionState) (c : control) : bool :=
  match c with
  | PickButton => loading st
  | ExportButton => loading st || (length (selectedImages st) =? 0)
  | ClearButton => false
  end.

(** The clear button is part of the result panel, which is rendered only
    when there are extracted texts. *)
Definition rendered (st : SessionState) (c : control) : bool :=
  match c with
  | ClearButton => 0 <? length (extractedTexts st)
  | _ => true
  end.

Definition onPress (env : Collaborators) (c : control) : Task unit :=
  match c with
  | PickButton => pickImages env
  | ExportButton => exportToPDF env
  | ClearButton => clearResults
  end.

(** A press on a control: a touchable that is disabled (or not on screen)
    does not run its handler. *)
Definition press (env : Collaborators) (c : control) : Task unit := fun st =>
  if rendered st c && negb (disabled st c) then onPress env c st
  else (Normal tt, st, []).

(** The states the screen can be left in: the initial one, and the state
    after any press whose handler has run to its end. *)
Inductive reachable : SessionState -> Prop :=
| reachable_init : reachable initialState
| reachable_press st env c :
    reachable st ->
    completes (press env c st) = true ->
    reachable (state_of (press env c st)).

(** ** Reading the generated document back

    [generateHTMLContent] returns text; what the PDF converter lays out is
    the element tree that text denotes.  To state how many page blocks a
    document holds, and what each one embeds, the text is read back by a
    small strict HTML reader: tags with double-quoted attribute values,
    void elements, character data.  It accepts a text only when every tag
    is closed by its matching end tag. *)

#[warnings="-register-all"]
Inductive node :=
| TextNode (data : string)
| Declaration (name : string) (attributes : list (string * string))
| Element (name : string) (attributes : list (string * string)) (children : list node).

Inductive tag_kind := StartTag | EndTag | BangTag.

(** Characters are collected newest first and turned around when the
    token they belong to ends. *)
Fixpoint unrev_onto (acc : list ascii) (s : string) : string :=
  match acc with
  | [] => s
  | c :: acc' => unrev_onto acc' (String c s)
  end.

Definition unrev (acc : list ascii) : string := unrev_onto acc "".

Fixpoint push_chars (s : string) (acc : list ascii) : list ascii :=
  match s with
  | EmptyString => acc
  | String c s' => push_chars s' (c :: acc)
  end.

Inductive reader_mode :=
| InText (acc : list ascii)
| TagOpen
| InTagName (kind : tag_kind) (acc : list ascii)
| BeforeAttr (kind : tag_kind) (name : string) (attrs : list (string * string))
| InAttrName (kind : tag_kind) (name : string) (attrs : list (string * string))
             (acc : list ascii)
| AfterEq (kind : tag_kind) (name : string) (attrs : list (string * string))
          (attr : string)
| InAttrValue (kind : tag_kind) (name : string) (attrs : list (string * string))
              (attr : string) (acc : list ascii).

(** An element whose start tag has been read and whose end tag has not:
    its name and attributes, and the nodes that precede it in its parent
    (newest first). *)
Record frame := {
  frame_name : string;
  frame_attributes : list (string * string);
  frame_before : list node
}.

Record reader := {
  mode : reader_mode;
  nodes : list node;            (* children of the innermost open element, newest first *)
  open_elements : list frame;   (* innermost first *)
  intact : bool                 (* no malformed markup met so far *)
}.

Definition void_elements : list string :=
  ["area"; "base"; "br"; "col"; "embed"; "hr"; "img"; "input"; "link"; "meta";
   "source"; "track"; "wbr"].

Definition is_void (name : string) : bool := existsb (String.eqb name) void_elements.

Definition flush (acc : list ascii) (ns : list node) : list node :=
  match acc with
  | [] => ns
  | _ => TextNode (unrev acc) :: ns
  end.

Definition broken (r : reader) : reader :=
  {| mode := mode r; nodes := nodes r; open_elements := open_elements r; intact := false |}.

Definition with_mode (m : reader_mode) (r : reader) : reader :=
  {| mode := m; nodes := nodes r; open_elements := open_elements r; intact := intact r |}.

(** The tag [<name attrs>] (or [</name>], or [<!name attrs>]) is complete. *)
Definition end_of_tag (kind : tag_kind) (name : string) (attrs : list (string * string))
    (r : reader) : reader :=
  match kind with
  | BangTag =>
      {| mode := InText []; nodes := Declaration name attrs :: nodes r;
         open_elements := open_elements r; intact := intact r |}
  | StartTag =>
      if is_void name then
        {| mode := InText []; nodes := Element name attrs [] :: nodes r;
           open_elements := open_elements r; intact := intact r |}
      else
        {| mode := InText []; nodes := [];
           open_elements :=
             {| frame_name := name; frame_attributes := attrs; frame_before := nodes r |}
             :: open_elements r;
           intact := intact r |}
  | EndTag =>
      match open_elements r with
      | f :: rest =>
          if String.eqb (frame_name f) name then
            {| mode := InText [];
               nodes := Element (frame_name f) (frame_attributes f) (rev (nodes r))
                        :: frame_before f;
               open_elements := rest; intact := intact r |}
          else broken r
      | [] => broken r
      end
  end.

Definition step (r : reader) (c : ascii) : reader :=
  if negb (intact r) then r else
  match mode r with
  | InText acc =>
      if Ascii.eqb c "<" then
        {| mode := TagOpen; nodes := flush acc (nodes r);
           open_elements := open_elements r; intact := true |}
      else with_mode (InText (c :: acc)) r
  | TagOpen =>
      if Ascii.eqb c "/" then with_mode (InTagName EndTag []) r
      else if Ascii.eqb c "!" then with_mode (InTagName BangTag []) r
      else if Ascii.eqb c ">" || Ascii.is_space c then broken r
      else with_mode (InTagName StartTag [c]) r
  | InTagName kind acc =>
      if Ascii.eqb c ">" then end_of_tag kind (unrev acc) [] r
      else if Ascii.is_space c || Ascii.eqb c "/" then with_mode (BeforeAttr kind (unrev acc) []) r
      else with_mode (InTagName kind (c :: acc)) r
  | BeforeAttr kind name attrs =>
      if Ascii.eqb c ">" then end_of_tag kind name attrs r
      else if Ascii.is_space c || Ascii.eqb c "/" then r
      else with_mode (InAttrName kind name attrs [c]) r
  | InAttrName kind name attrs acc =>
      if Ascii.eqb c "=" then with_mode (AfterEq kind name attrs (unrev acc)) r
      else if Ascii.eqb c ">" then end_of_tag kind name (attrs ++ [(unrev acc, "")]) r
      else if Ascii.is_space c then with_mode (BeforeAttr kind name (attrs ++ [(unrev acc, "")])) r
      else with_mode (InAttrName kind name attrs (c :: acc)) r
  | AfterEq kind name attrs attr =>
      if Ascii.eqb c "034" then with_mode (InAttrValue kind name attrs attr []) r
      else broken r
  | InAttrValue kind name attrs attr acc =>
      if Ascii.eqb c "034" then with_mode (BeforeAttr kind name (attrs ++ [(attr, unrev acc)])) r
      else with_mode (InAttrValue kind name attrs attr (c :: acc)) r
  end.

Fixpoint run (r : reader) (s : string) : reader :=
  match s with
  | EmptyString => r
  | String c s' => run (step r c) s'
  end.

Definition start_reader : reader :=
  {| mode := InText []; nodes := []; open_elements := []; intact := true |}.

(** The nodes of a text that ends outside any tag with every element
    closed. *)
Definition finish (r : reader) : option (list node) :=
  match mode r, open_elements r, intact r with
  | InText acc, [], true => Some (rev (flush acc (nodes r)))
  | _, _, _ => None
  end.

Definition parse (s : string) : option (list node) := finish (run start_reader s).

(** *** Walking the tree *)

Definition is_element (n : node) : bool :=
  match n with Element _ _ _ => true | _ => false end.

Definition child_elements (ns : list node) : list node := filter (fun n => is_element n = true) ns.

Definition children_of (n : node) : list node :=
  match n with Element _ _ children => children | _ => [] end.

Definition attributes_of (n : node) : list (string * string) :=
  match n with Element _ attrs _ => attrs | _ => [] end.

Definition name_of (n : node) : string :=
  match n with Element name _ _ => name | _ => "" end.

Definition attribute (key : string) (n : node) : option string :=
  snd <$> find (fun kv => String.eqb (fst kv) key) (attributes_of n).

(** The first child element called [name]. *)
Definition child_named (name : string) (ns : list node) : option node :=
  find (fun n => is_element n && String.eqb (name_of n) name) ns.

Definition text_of (ns : list node) : string :=
  foldr (fun n acc => match n with TextNode data => data +:+ acc | _ => acc end) "" ns.

(** The element children of [<body>]: the page blocks of a document. *)
Definition body_elements (doc : list node) : option (list node) :=
  root ← child_named "html" doc;
  body ← child_named "body" (children_of root);
  Some (child_elements (children_of body)).

(** The text of the [<style>] element in [<head>]. *)
Definition style_text (doc : list node) : option string :=
  root ← child_named "html" doc;
  head ← child_named "head" (children_of root);
  style ← child_named "style" (children_of head);
  Some (text_of (children_of style)).

Fixpoint quote_free (s : string) : bool :=
  match s with
  | EmptyString => true
  | String c s' => negb (Ascii.eqb c "034") && quote_free s'
  end.

(** Text that stands for itself inside a double-quoted attribute value:
    no double quote, which would end the value, and no ampersand, which
    would start a character reference (the reader does not decode those). *)
Fixpoint plain (s : string) : bool :=
  match s with
  | EmptyString => true
  | String c s' => negb (Ascii.eqb c "034") && negb (Ascii.eqb c "&") && plain s'
  end.

(** An asset is well formed when its MIME type and its payload are plain;
    the MIME types of images and base64 text always are. *)
Definition well_formed_asset (image : ImageAsset) : bool :=
  plain (type image) && plain (base64 image).

(** *** What a composed document should hold *)

(** The data URI of an image. *)
Definition dataURI (image : ImageAsset) : string :=
  "data:" +:+ type image +:+ ";base64," +:+ base64 image.

(** A page block: a [div] of class [page] around one [img]. *)
Definition page_block (image : ImageAsset) : node :=
  Element "div" [("class", "page")]
    [TextNode "
          ";
     Element "img" [("src", dataURI image)] [];
     TextNode "
        "].

(** The children of [<body>] for a list of images: the white space the
    templates leave around the page blocks, and one block per image. *)
Definition body_children (images : list ImageAsset) : list node :=
  TextNode "
    
        "
  :: flat_map (fun image => [page_block image; TextNode "
      
        "]) images.

(** The text between [<style>] and [</style>] in [htmlHead]. *)
Definition styleText : string := "
            body { margin: 0; padding: 0; }
            .page { 
              page-break-after: always;
              margin: 0;
              padding: 0;
              width: 100%;
              height: 100%;
              display: flex;
              justify-content: center;
              align-items: center;
            }
            .page:last-child { page-break-after: auto; }
            img {
              max-width: 100%;
              max-height: 100%;
              object-fit: contain;
            }
          ".

(** The whole tree: doctype, [html] with [head] (holding the style sheet)
    and [body]. *)
Definition document_of (body : list node) : list node :=
  [TextNode "
      ";
   Declaration "DOCTYPE" [("html", "")];
   TextNode "
      ";
   Element "html" []
     [TextNode "
        ";
      Element "head" []
        [TextNode "
          ";
         Element "style" [] [TextNode styleText];
         TextNode "
        "];
      TextNode "
        ";
      Element "body" [] body;
      TextNode "
      "];
   TextNode "
    "].

Definition document (images : list ImageAsset) : list node :=
  document_of (body_children images).

(** The templates of all images, one after the other. *)
Definition pagesText (images : list ImageAsset) : string :=
  foldr (fun image s => pageTemplate image +:+ s) "" images.

(** The fixed text of a template before the MIME type and after the
    payload. *)
Definition templateOpen : string :=
  "
        <div class=" +:+ dq +:+ "page" +:+ dq +:+ ">
          <img src=" +:+ dq +:+ "data:".
Definition templateClose : string :=
  dq +:+ " />
        </div>
      ".

(** The white space a template starts with and ends with. *)
Definition templateStart : string := "
        ".
Definition templateEnd : string := "
      ".

(** The reader in the middle of [<body>]: the pending text and the nodes
    read so far (newest first), after the templates of [images] have been
    read from there. *)
Fixpoint pages_read (acc : list ascii) (ns : list node) (images : list ImageAsset)
  : list ascii * list node :=
  match images with
  | [] => (acc, ns)
  | image :: rest =>
      pages_read (push_chars templateEnd [])
                 (page_block image :: TextNode (unrev_onto acc templateStart) :: ns) rest
  end.

Definition in_text (acc : list ascii) (ns : list node) (fs : list frame) : reader :=
  {| mode := InText acc; nodes := ns; open_elements := fs; intact := true |}.

(** The elements open once [htmlHead] has been read: [body] in [html]. *)
Definition open_after_head : list frame := open_elements (run start_reader htmlHead).

(** ** The style sheet and the page breaks it asks for

    The document carries its page breaks in its style sheet, as values of
    the property [page-break-after].  The sheet is read from the text of
    the [<style>] element, and the value that applies to an element is
    found by the cascade: among the declarations of the rules whose
    selector matches, the most specific wins, and the later one among
    equals. *)

Record rule := {
  rule_selector : string;
  rule_declarations : list (string * string)
}.

Inductive css_mode :=
| InSelector (acc : list ascii)
| InProperty (sel : string) (decls : list (string * string)) (acc : list ascii)
| InValue (sel : string) (decls : list (string * string)) (prop : string) (acc : list ascii).

(** Drops the white space at the end of a token (the start of its
    reversed characters). *)
Fixpoint strip (acc : list ascii) : list ascii :=
  match acc with
  | c :: acc' => if Ascii.is_space c then strip acc' else acc
  | [] => []
  end.

(** White space before a token is skipped. *)
Definition collect (c : ascii) (acc : list ascii) : list ascii :=
  match acc with
  | [] => if Ascii.is_space c then [] else [c]
  | _ => c :: acc
  end.

Definition css_step (st : css_mode * list rule) (c : ascii) : css_mode * list rule :=
  let '(m, rules) := st in
  match m with
  | InSelector acc =>
      if Ascii.eqb c "{" then (InProperty (unrev (strip acc)) [] [], rules)
      else (InSelector (collect c acc), rules)
  | InProperty sel decls acc =>
      if Ascii.eqb c ":" then (InValue sel decls (unrev (strip acc)) [], rules)
      else if Ascii.eqb c "}" then
        (InSelector [], rules ++ [{| rule_selector := sel; rule_declarations := decls |}])
      else (InProperty sel decls (collect c acc), rules)
  | InValue sel decls prop acc =>
      if Ascii.eqb c ";" then (InProperty sel (decls ++ [(prop, unrev (strip acc))]) [], rules)
      else if Ascii.eqb c "}" then
        (InSelector [],
         rules ++ [{| rule_selector := sel;
                      rule_declarations := decls ++ [(prop, unrev (strip acc))] |}])
      else (InValue sel decls prop (collect c acc), rules)
  end.

Fixpoint css_run (st : css_mode * list rule) (s : string) : css_mode * list rule :=
  match s with
  | EmptyString => st
  | String c s' => css_run (css_step st c) s'
  end.

Definition parse_css (s : string) : option (list rule) :=
  match css_run (InSelector [], []) s with
  | (InSelector [], rules) => Some rules
  | _ => None
  end.

(** The selectors the cascade below understands. *)
Inductive selector :=
| TypeSelector (name : string)
| ClassSelector (class : string)
| ClassLastChild (class : string)
| OtherSelector.

(** Splits a string at its first colon. *)
Fixpoint break_at_colon (s : string) : string * option string :=
  match s with
  | EmptyString => ("", None)
  | String c s' =>
      if Ascii.eqb c ":" then ("", Some s')
      else let '(a, b) := break_at_colon s' in (String c a, b)
  end.

Definition parse_selector (s : string) : selector :=
  match s with
  | String "." rest =>
      match break_at_colon rest with
      | (class, None) => ClassSelector class
      | (class, Some pseudo) =>
          if String.eqb pseudo "last-child" then ClassLastChild class else OtherSelector
      end
  | _ =>
      match break_at_colon s with
      | (name, None) => TypeSelector name
      | _ => OtherSelector
      end
  end.

Definition has_class (class : string) (el : node) : bool :=
  match attribute "class" el with
  | Some v => existsb (String.eqb class) (String.words v)
  | None => false
  end.

(** Whether a selector matches the element [el], which is child number
    [index] (from 0) among the [siblings] element children of its parent. *)
Definition selector_matches (sel : selector) (el : node) (index siblings : nat) : bool :=
  match sel with
  | TypeSelector name => String.eqb (name_of el) name
  | ClassSelector class => has_class class el
  | ClassLastChild class => has_class class el && (index + 1 =? siblings)
  | OtherSelector => false
  end.

(** Specificity: a type selector counts 1, a class or pseudo-class 10. *)
Definition specificity (sel : selector) : nat :=
  match sel with
  | TypeSelector _ => 1
  | ClassSelector _ => 10
  | ClassLastChild _ => 20
  | OtherSelector => 0
  end.

(** The last declaration of [prop] in a rule. *)
Definition declared (prop : string) (r : rule) : option string :=
  snd <$> find (fun kv => String.eqb (fst kv) prop) (rev (rule_declarations r)).

Definition cascade (sheet : list rule) (prop initial : string)
    (el : node) (index siblings : nat) : string :=
  (fold_left
     (fun '(best, value) r =>
        let sel := parse_selector (rule_selector r) in
        if selector_matches sel el index siblings then
          match declared prop r with
          | Some v => if best <=? specificity sel then (specificity sel, v) else (best, value)
          | None => (best, value)
          end
        else (best, value))
     sheet (0, initial)).2.

(** Whether the sheet forces a page break after the element. *)
Definition forced_break_after (sheet : list rule) (el : node) (index siblings : nat) : bool :=
  String.eqb (cascade sheet "page-break-after" "auto" el index siblings) "always".

(** For each page block of a document, in order, whether a page break is
    forced after it. *)
Definition page_breaks (doc : list node) : option (list bool) :=
  css ← style_text doc;
  sheet ← parse_css css;
  pages ← body_elements doc;
  Some (imap (fun i el => forced_break_after sheet el i (length pages)) pages).

(** The page breaks of the document a text denotes. *)
Definition breaks_of (html : string) : option (list bool) :=
  doc ← parse html; page_breaks doc.

(** The sheet of [htmlHead], rule by rule. *)
Definition styleSheet : list rule :=
  [ {| rule_selector := "body";
       rule_declarations := [("margin", "0"); ("padding", "0")] |};
    {| rule_selector := ".page";
       rule_declarations :=
         [("page-break-after", "always"); ("margin", "0"); ("padding", "0");
          ("width", "100%"); ("height", "100%"); ("display", "flex");
          ("justify-content", "center"); ("align-items", "center")] |};
    {| rule_selector := ".page:last-child";
       rule_declarations := [("page-break-after", "auto")] |};
    {| rule_selector := "img";
       rule_declarations :=
         [("max-width", "100%"); ("max-height", "100%"); ("object-fit", "contain")] |} ].

(** ** Vocabulary of the statements about batches *)

(** The number of elements a combined promise still awaits. *)
Definition none_count {A} (values : list (option A)) : nat :=
  length (filter (fun v => v = None) values).

(** The error of the input promise that rejects first, in settling order. *)
Definition first_failure {A} (results : list (outcome A)) (order : list nat) : option JsError :=
  head (omap (fun i => match results !! i with
                       | Some (Throws e) => Some e
                       | _ => None
                       end) order).

(** The text block of an asset whose recognition call returns. *)
Definition extracted (recognize : string -> outcome OcrResult) (asset : ImageAsset) : string :=
  match recognize (uri asset) with
  | Returns results => normalize results
  | Throws _ => ""
  end.

Definition returns {A} (o : outcome A) : bool :=
  match o with Returns _ => true | Throws _ => false end.

(** What holds of the combined promise at every moment: it awaits at
    least one input and as many as it has empty slots, and every value it
    holds is the resolved value of the input at the same index. *)
Definition promise_inv {A} (results : list (outcome A)) (p : promise A) : Prop :=
  match p with
  | Waiting values remaining =>
      length values = length results /\
      remaining = none_count values /\
      1 <= remaining /\
      (forall k x, values !! k = Some (Some x) -> results !! k = Some (Returns x))
  | Fulfilled v => results = map Returns v
  | Rejected e => exists k, results !! k = Some (Throws e)
  end.



(** Every recognition call of the batch settles, exactly once. *)
Definition every_call_settles (env : Collaborators) : Prop :=
  forall assets, launchImageLibrary env = Returns (Some assets) ->
    completion_order env ≡ₚ seq 0 (length assets).

(** ** Sample runs *)

Definition photo1 : ImageAsset :=
  {| uri := "file:///photos/1.jpg"; type := "image/jpeg"; base64 := "QUJD" |}.
Definition photo2 : ImageAsset :=
  {| uri := "file:///photos/2.jpg"; type := "image/jpeg"; base64 := "REVG" |}.
Definition photo3 : ImageAsset :=
  {| uri := "file:///photos/3.jpg"; type := "image/jpeg"; base64 := "R0hJ" |}.

(** A recognizer that answers with an array, a string and an empty array
    for the three photos, and fails on anything else. *)
Definition sample_recognize (imagePath : string) : outcome OcrResult :=
  if String.eqb imagePath "file:///photos/1.jpg" then Returns (ResArray ["A"; "B"])
  else if String.eqb imagePath "file:///photos/2.jpg" then Returns (ResString "C")
  else if String.eqb imagePath "file:///photos/3.jpg" then Returns (ResArray [])
  else Throws (Error "unreadable image").

(** An Android device where everything is granted and works, the user
    picks [assets], and the recognition calls settle in [order]. *)
Definition sample_env (assets : list ImageAsset) (order : list nat) : Collaborators :=
  {| Platform_OS := android;
     PermissionsAndroid_request := fun _ => Returns GRANTED;
     launchImageLibrary := Returns (Some assets);
     TextRecognition_recognize := sample_recognize;
     completion_order := order;
     RNHTMLtoPDF_convert := fun _ => Returns (Some "/storage/Download/images_1.pdf");
     Clipboard_setString := fun _ => Returns tt;
     Date_now := 1 |}.

Definition blurred : ImageAsset :=
  {| uri := "file:///photos/blurred.jpg"; type := "image/jpeg"; base64 := "SktM" |}.

(** The state after picking [photo1] alone. *)
Definition one_photo_state : SessionState :=
  {| selectedImages := [photo1]; extractedTexts := ["A" +:+ nl +:+ "B"]; loading := false |}.

(** The state after then picking [photo2] and [blurred], whose
    recognition fails. *)
Definition stale_state : SessionState :=
  {| selectedImages := [photo2; blurred];
     extractedTexts := ["A" +:+ nl +:+ "B"];
     loading := false |}.

Definition busy_state : SessionState :=
  {| selectedImages := [photo1]; extractedTexts := ["A" +:+ nl +:+ "B"]; loading := true |}.

(** The writes to the state cells among the events of a trace. *)
Definition state_writes (tr : list event) : list event :=
  filter (fun e => is_state_write e = true) tr.

Definition set_loading (v : bool) (st : SessionState) : SessionState :=
  {| selectedImages := selectedImages st; extractedTexts := extractedTexts st; loading := v |}.

(** A break after every page block but the last. *)
Definition breaks_between (n : nat) : list bool :=
  match n with
  | 0 => []
  | S m => replicate m true ++ [false]
  end.

Definition well_formed_assets (images : list ImageAsset) : Prop :=
  Forall (fun image => well_formed_asset image = true) images.

(** ** Vocabulary of the statements about whole runs *)

(** The image paths handed to [TextRecognition.recognize], in call order. *)
Definition recognize_calls (tr : list event) : list string :=
  omap (fun e => match e with Recognize imagePath => Some imagePath | _ => None end) tr.

(** The notices shown to the user, in order: title and message. *)
Definition alerts (tr : list event) : list (string * string) :=
  omap (fun e => match e with AlertAlert title message => Some (title, message) | _ => None end) tr.

(** The option objects handed to [RNHTMLtoPDF.convert], in call order. *)
Definition convert_calls (tr : list event) : list ConvertOptions :=
  omap (fun e => match e with Convert options => Some options | _ => None end) tr.

(** The strings handed to [Clipboard.setString], in call order. *)
Definition clipboard_calls (tr : list event) : list string :=
  omap (fun e => match e with ClipboardSetString s => Some s | _ => None end) tr.

(** The events of the permission gate: requests and console output. *)
Definition is_gate_event (e : event) : bool :=
  match e with
  | PermissionRequest _ | ConsoleError _ => true
  | _ => false
  end.

(** The same environment with another settling order of the batch. *)
Definition with_completion_order (order : list nat) (env : Collaborators) : Collaborators :=
  {| Platform_OS := Platform_OS env;
     PermissionsAndroid_request := PermissionsAndroid_request env;
     launchImageLibrary := launchImageLibrary env;
     TextRecognition_recognize := TextRecognition_recognize env;
     completion_order := order;
     RNHTMLtoPDF_convert := RNHTMLtoPDF_convert env;
     Clipboard_setString := Clipboard_setString env;
     Date_now := Date_now env |}.

(** The state with other images and texts. *)
Definition with_results (images : list ImageAsset) (texts : list string) (busy : bool)
  : SessionState :=
  {| selectedImages := images; extractedTexts := texts; loading := busy |}.

(** Cuts a text at its line feeds. *)
Fixpoint split_lines (s : string) : list string :=
  match s with
  | EmptyString => [""]
  | String c s' =>
      if Ascii.eqb c "010" then "" :: split_lines s'
      else match split_lines s' with
           | line :: rest => String c line :: rest
           | [] => [String c ""]
           end
  end.

Fixpoint line_feed_free (s : string) : bool :=
  match s with
  | EmptyString => true
  | String c s' => negb (Ascii.eqb c "010") && line_feed_free s'
  end.

(** ** More sample environments *)

(** The device of [sample_env] where the user refuses write access. *)
Definition refusing_env : Collaborators :=
  {| Platform_OS := android;
     PermissionsAndroid_request :=
       fun p => match p with
                | READ_EXTERNAL_STORAGE => Returns GRANTED
                | WRITE_EXTERNAL_STORAGE => Returns DENIED
                end;
     launchImageLibrary := Returns (Some [photo1]);
     TextRecognition_recognize := sample_recognize;
     completion_order := [0];
     RNHTMLtoPDF_convert := fun _ => Returns (Some "/storage/Download/images_1.pdf");
     Clipboard_setString := fun _ => Returns tt;
     Date_now := 1 |}.

(** An iPhone with the given picker, converter and clipboard behaviour. *)
Definition ios_env (picked : outcome (option (list ImageAsset)))
    (converted : outcome (option string)) (copied : outcome unit) : Collaborators :=
  {| Platform_OS := ios;
     PermissionsAndroid_request := fun _ => Returns DENIED;
     launchImageLibrary := picked;
     TextRecognition_recognize := sample_recognize;
     completion_order := [];
     RNHTMLtoPDF_convert := fun _ => converted;
     Clipboard_setString := fun _ => copied;
     Date_now := 1730000000000 |}.

(** Every recognition call for the assets returns. *)
Definition all_recognized (recognize : string -> outcome OcrResult)
    (assets : list ImageAsset) : bool :=
  forallb (fun asset => returns (recognize (uri asset))) assets.

(** The fixed text of a template before the data URI. *)
Definition templateBeforeURI : string :=
  "
        <div class=" +:+ dq +:+ "page" +:+ dq +:+ ">
          <img src=" +:+ dq.

(** * Properties *)

(** ** Strings and accumulators *)

Lemma string_app_cons (c : ascii) (s t : string) : String c s +:+ t = String c (s +:+ t).
Proof. reflexivity. Qed.

Lemma string_app_nil_r (s : string) : s +:+ "" = s.
Proof. induction s as [|c s IH]; [done|]. by rewrite string_app_cons, IH. Qed.

Lemma string_app_assoc (s1 s2 s3 : string) : (s1 +:+ s2) +:+ s3 = s1 +:+ (s2 +:+ s3).
Proof. induction s1 as [|c s1 IH]; [done|]. by rewrite !string_app_cons, IH. Qed.

Lemma unrev_onto_push (s : string) : forall acc t,
  unrev_onto (push_chars s acc) t = unrev_onto acc (s +:+ t).
Proof.
  induction s as [|c s IH]; intros acc t; [done|].
  cbn [push_chars]. by rewrite IH.
Qed.

(** ** Running handlers *)

Ltac unfold_task :=
  unfold try_finally, try_catch, bind, ret, call, get, emit, emit_all, await,
    Alert_alert, console_error, setLoading, setSelectedImages, setExtractedTexts,
    result_of, state_of, trace_of, completes in *.

(** ** [join] *)

Section Join.
Variable sep : string.

Lemma join_fold_later (xs : list string) : forall k R,
  (fold_left (join_step sep) xs (S k, R)).2 = R +:+ separated sep xs.
Proof.
  induction xs as [|x xs IH]; intros k R; cbn.
  - by rewrite string_app_nil_r.
  - rewrite IH. by rewrite !string_app_assoc.
Qed.

Lemma concat_cons (x : string) (xs : list string) :
  String.concat sep (x :: xs) = x +:+ separated sep xs.
Proof.
  revert x. induction xs as [|y xs IH]; intros x.
  - cbn. by rewrite string_app_nil_r.
  - change (String.concat sep (x :: y :: xs)) with (x +:+ sep +:+ String.concat sep (y :: xs)).
    rewrite IH. done.
Qed.

Lemma join_concat (xs : list string) : join sep xs = String.concat sep xs.
Proof.
  destruct xs as [|x xs]; [done|].
  rewrite concat_cons. unfold join. cbn [fold_left].
  change (join_step sep (0, "") x) with (1, x).
  by rewrite join_fold_later.
Qed.

End Join.

(** ** [Promise.all] *)

Section PromiseAll.
Context {A : Type}.
Variable results : list (outcome A).

Abbreviation settle := (Promise_all_settle results).
Abbreviation promise_inv := (promise_inv results).

Lemma none_count_insert (values : list (option A)) : forall i x,
  values !! i = Some None ->
  S (none_count (<[i := Some x]> values)) = none_count values.
Proof.
  unfold none_count.
  induction values as [|v values IH]; intros i x Hi; [done|].
  destruct i as [|i]; cbn in Hi.
  - injection Hi as ->. cbn [insert list_insert].
    rewrite filter_cons_False by done. rewrite filter_cons_True by done. done.
  - cbn [insert list_insert]. destruct v as [a|].
    + rewrite !filter_cons_False by done. by apply IH.
    + rewrite !filter_cons_True by done. cbn [length]. f_equal. by apply IH.
Qed.

Lemma none_count_replicate (n : nat) : none_count (replicate n (@None A)) = n.
Proof.
  unfold none_count. induction n as [|n IH]; [done|].
  cbn [replicate]. rewrite filter_cons_True by done. cbn [length]. by rewrite IH.
Qed.

Lemma none_count_zero (values : list (option A)) :
  none_count values = 0 -> forall k, values !! k <> Some None.
Proof.
  unfold none_count.
  induction values as [|v values IH]; intros H0 k Hk; [done|].
  destruct v as [a|].
  - rewrite filter_cons_False in H0 by done.
    destruct k as [|k]; [done|]. by eapply IH.
  - rewrite filter_cons_True in H0 by done. done.
Qed.

(** When nothing is awaited any more, the collected values are the
    resolved values of the inputs, index by index. *)
Lemma all_collected (values : list (option A)) :
  length values = length results ->
  none_count values = 0 ->
  (forall k x, values !! k = Some (Some x) -> results !! k = Some (Returns x)) ->
  results = map Returns (omap id values).
Proof.
  intros Hlen H0 Hval.
  assert (Hsome : forall k, values !! k <> Some None) by by apply none_count_zero.
  clear H0. revert values Hlen Hval Hsome.
  induction results as [|r rs IH]; intros values Hlen Hval Hsome.
  - destruct values; [done|discriminate].
  - destruct values as [|v values]; [discriminate|].
    destruct v as [x|]; [|by specialize (Hsome 0)].
    cbn. f_equal.
    + specialize (Hval 0 x eq_refl). by injection Hval.
    + apply IH.
      * by injection Hlen.
      * intros k y Hk. apply (Hval (S k) y Hk).
      * intros k. apply (Hsome (S k)).
Qed.

Lemma promise_inv_start : promise_inv (Promise_all_start (length results)).
Proof.
  unfold Promise_all_start.
  destruct (Nat.eqb_spec (length results) 0) as [H0|Hn].
  - cbn. by destruct results.
  - cbn. repeat split.
    + by rewrite length_replicate.
    + symmetry. apply none_count_replicate.
    + lia.
    + intros k x Hk. apply lookup_replicate in Hk as [? _]. done.
Qed.

Lemma promise_inv_settle (p : promise A) (i : nat) :
  promise_inv p -> promise_inv (settle p i).
Proof.
  destruct p as [values remaining| |]; [|done..].
  intros (Hlen & Hrem & Hpos & Hval). unfold Promise_all_settle.
  destruct (values !! i) as [[x|]|] eqn:Hi; [by repeat split| |by repeat split].
  destruct (results !! i) as [[x|e]|] eqn:Hr; [| |by repeat split].
  - pose proof (none_count_insert values i x Hi) as Hcount.
    assert (Hval' : forall k y, <[i:=Some x]> values !! k = Some (Some y) ->
                                results !! k = Some (Returns y)).
    { intros k y Hk. destruct (decide (i = k)) as [->|Hne].
      - rewrite list_lookup_insert_eq in Hk by (by eapply lookup_lt_Some).
        by simplify_eq.
      - rewrite list_lookup_insert_ne in Hk by done. by apply Hval. }
    destruct (Nat.eqb_spec remaining 1) as [H1|H1].
    + cbn. apply all_collected; [by rewrite length_insert|lia|done].
    + cbn. repeat split; [by rewrite length_insert|lia|lia|done].
  - cbn. by exists i.
Qed.

Lemma promise_inv_fold (order : list nat) : forall p,
  promise_inv p -> promise_inv (fold_left settle order p).
Proof.
  induction order as [|i order IH]; intros p Hp; [done|].
  cbn. apply IH. by apply promise_inv_settle.
Qed.

(** A settled promise stays settled. *)
Lemma fold_settle_fulfilled (order : list nat) (v : list A) :
  fold_left settle order (Fulfilled v) = Fulfilled v.
Proof. induction order; [done|]. by cbn. Qed.

Lemma fold_settle_rejected (order : list nat) (e : JsError) :
  fold_left settle order (Rejected e) = Rejected e.
Proof. induction order; [done|]. by cbn. Qed.

(** A value, once stored, stays stored while the promise waits. *)
Lemma settle_keeps (values values' : list (option A)) (remaining remaining' i k : nat) (x : A) :
  settle (Waiting values remaining) i = Waiting values' remaining' ->
  values !! k = Some (Some x) -> values' !! k = Some (Some x).
Proof.
  unfold Promise_all_settle. intros Hs Hk.
  destruct (values !! i) as [[y|]|] eqn:Hi; [by simplify_eq| |by simplify_eq].
  destruct (results !! i) as [[y|e]|] eqn:Hr; [|done|by simplify_eq].
  destruct (remaining =? 1); [done|]. simplify_eq.
  rewrite list_lookup_insert_ne; [done|]. intros ->. by simplify_eq.
Qed.

Lemma fold_keeps (order : list nat) : forall values remaining values' remaining' k x,
  fold_left settle order (Waiting values remaining) = Waiting values' remaining' ->
  values !! k = Some (Some x) -> values' !! k = Some (Some x).
Proof.
  induction order as [|i order IH]; intros values remaining values' remaining' k x Hf Hk.
  - cbn in Hf. by simplify_eq.
  - cbn [fold_left] in Hf.
    destruct (settle (Waiting values remaining) i) as [vs r|v|e] eqn:Hs.
    + eapply IH; [done|]. by eapply settle_keeps.
    + by rewrite fold_settle_fulfilled in Hf.
    + by rewrite fold_settle_rejected in Hf.
Qed.

Lemma settle_length (values values' : list (option A)) (remaining remaining' i : nat) :
  settle (Waiting values remaining) i = Waiting values' remaining' ->
  length values' = length values.
Proof.
  unfold Promise_all_settle. intros Hs.
  repeat case_match; simplify_eq; by rewrite ?length_insert.
Qed.

Lemma fold_length (order : list nat) : forall values remaining values' remaining',
  fold_left settle order (Waiting values remaining) = Waiting values' remaining' ->
  length values' = length values.
Proof.
  induction order as [|i order IH]; intros values remaining values' remaining' Hf.
  - cbn in Hf. by simplify_eq.
  - cbn [fold_left] in Hf.
    destruct (settle (Waiting values remaining) i) as [vs r|v|e] eqn:Hs;
      [|by rewrite fold_settle_fulfilled in Hf|by rewrite fold_settle_rejected in Hf].
    rewrite (IH _ _ _ _ Hf). by eapply settle_length.
Qed.

(** While the promise waits, no input that has settled is still awaited. *)
Lemma fold_waiting_filled (order : list nat) : forall values remaining values' remaining' k,
  length values = length results ->
  fold_left settle order (Waiting values remaining) = Waiting values' remaining' ->
  k ∈ order -> values' !! k <> Some None.
Proof.
  induction order as [|i order IH]; intros values remaining values' remaining' k Hlen Hf Hin.
  - by apply elem_of_nil in Hin.
  - cbn [fold_left] in Hf.
    destruct (settle (Waiting values remaining) i) as [vs r|v|e] eqn:Hs;
      [|by rewrite fold_settle_fulfilled in Hf|by rewrite fold_settle_rejected in Hf].
    pose proof (settle_length _ _ _ _ _ Hs) as Hlen'.
    apply elem_of_cons in Hin as [->|Hin]; [|eapply IH; [|done..]; congruence].
    unfold Promise_all_settle in Hs.
    destruct (values !! i) as [[y|]|] eqn:Hi.
    + simplify_eq. by rewrite (fold_keeps _ _ _ _ _ _ _ Hf Hi).
    + destruct (results !! i) as [[y|e]|] eqn:Hr; [|done|].
      * destruct (remaining =? 1); [done|]. simplify_eq.
        assert (Hset : <[i:=Some y]> values !! i = Some (Some y)).
        { apply list_lookup_insert_eq. by eapply lookup_lt_Some. }
        by rewrite (fold_keeps _ _ _ _ _ _ _ Hf Hset).
      * apply lookup_ge_None in Hr. apply lookup_lt_Some in Hi. lia.
    + simplify_eq. intros Hk.
      pose proof (fold_length _ _ _ _ _ Hf) as Hl.
      apply lookup_lt_Some in Hk. apply lookup_ge_None in Hi. lia.
Qed.

Lemma map_Returns_inj (xs : list A) : forall ys,
  map Returns xs = map Returns ys -> xs = ys.
Proof.
  induction xs as [|x xs IH]; intros [|y ys] H; try done.
  cbn in H. injection H as -> H. f_equal. by apply IH.
Qed.

(** When every input resolves and every input settles, the combined
    promise is fulfilled with the values in index order, whatever the order
    in which they arrived. *)
Lemma Promise_all_fulfils (order : list nat) (xs : list A) :
  results = map Returns xs ->
  (forall k, k < length results -> k ∈ order) ->
  Promise_all results order = Fulfilled xs.
Proof.
  intros Hres Hcover. unfold Promise_all.
  pose proof (promise_inv_fold order _ promise_inv_start) as Hinv.
  destruct (fold_left settle order (Promise_all_start (length results)))
    as [values remaining|v|e] eqn:Hf.
  - exfalso. destruct Hinv as (Hlen & Hrem & Hpos & _).
    unfold Promise_all_start in Hf.
    destruct (length results =? 0); [by rewrite fold_settle_fulfilled in Hf|].
    destruct (decide (none_count values = 0)) as [H0|H0]; [lia|].
    assert (exists k, values !! k = Some None) as [k Hk].
    { clear -H0. unfold none_count in H0.
      destruct (filter (fun v => v = None) values) as [|v l] eqn:Hfl; [done|].
      assert (Hv : v ∈ filter (fun v : option A => v = None) values)
        by (rewrite Hfl; apply elem_of_cons; by left).
      apply list_elem_of_filter in Hv as [-> Hv].
      by apply list_elem_of_lookup in Hv. }
    eapply (fold_waiting_filled order); [|exact Hf| |exact Hk].
    + by rewrite length_replicate.
    + apply Hcover. apply lookup_lt_Some in Hk. lia.
  - cbn in Hinv. f_equal. rewrite Hres in Hinv.
    symmetry. by apply map_Returns_inj.
  - destruct Hinv as [k Hk]. rewrite Hres, list_lookup_fmap in Hk.
    by destruct (xs !! k).
Qed.

(** While no failing input settles, the combined promise is not rejected. *)
Lemma fold_not_rejected (order : list nat) : forall p e,
  (forall j e', j ∈ order -> results !! j <> Some (Throws e')) ->
  (forall e', p <> Rejected e') ->
  fold_left settle order p <> Rejected e.
Proof.
  induction order as [|i order IH]; intros p e Hok Hp; [by apply Hp|].
  cbn [fold_left]. apply IH.
  - intros j e' Hj. apply Hok. apply elem_of_cons. by right.
  - intros e' Hs. destruct p as [values remaining|v|e0]; [|done|by eapply Hp].
    unfold Promise_all_settle in Hs.
    repeat case_match; simplify_eq.
    eapply Hok; [|done]. apply elem_of_cons. by left.
Qed.

(** The first input to reject rejects the combined promise, with its own
    error; what settles afterwards changes nothing. *)
Lemma Promise_all_rejects (pre post : list nat) (i : nat) (e : JsError) :
  results !! i = Some (Throws e) ->
  (forall j e', j ∈ pre -> results !! j <> Some (Throws e')) ->
  Promise_all results (pre ++ i :: post) = Rejected e.
Proof.
  intros Hi Hpre. unfold Promise_all. rewrite fold_left_app. cbn [fold_left].
  pose proof (promise_inv_fold pre _ promise_inv_start) as Hinv.
  destruct (fold_left settle pre (Promise_all_start (length results)))
    as [values remaining|v|e0] eqn:Hf.
  - destruct Hinv as (Hlen & _ & _ & Hval).
    unfold Promise_all_settle. rewrite Hi.
    destruct (values !! i) as [[x|]|] eqn:Hvi.
    + apply Hval in Hvi. congruence.
    + apply fold_settle_rejected.
    + apply lookup_ge_None in Hvi. apply lookup_lt_Some in Hi. lia.
  - cbn in Hinv. rewrite Hinv, list_lookup_fmap in Hi. by destruct (v !! i).
  - exfalso. eapply (fold_not_rejected pre); [exact Hpre| |exact Hf].
    intros e'. unfold Promise_all_start. by destruct (length results =? 0).
Qed.

Lemma first_failure_Some (order : list nat) (e : JsError) :
  first_failure results order = Some e ->
  exists pre i post,
    order = pre ++ i :: post /\ results !! i = Some (Throws e) /\
    (forall j e', j ∈ pre -> results !! j <> Some (Throws e')).
Proof.
  unfold first_failure.
  induction order as [|i order IH]; intros Hff; [done|].
  cbn [omap list_omap] in Hff.
  destruct (results !! i) as [[x|e0]|] eqn:Hi.
  - destruct (IH Hff) as (pre & k & post & -> & Hk & Hpre).
    exists (i :: pre), k, post. split_and!; [done..|].
    intros j e' [->|Hj]%elem_of_cons; [congruence|by apply Hpre].
  - cbn in Hff. simplify_eq. exists [], i, order. split_and!; [done..|].
    intros j e' Hj. by apply elem_of_nil in Hj.
  - destruct (IH Hff) as (pre & k & post & -> & Hk & Hpre).
    exists (i :: pre), k, post. split_and!; [done..|].
    intros j e' [->|Hj]%elem_of_cons; [congruence|by apply Hpre].
Qed.

Lemma first_failure_None (order : list nat) :
  first_failure results order = None ->
  forall j e, j ∈ order -> results !! j <> Some (Throws e).
Proof.
  unfold first_failure.
  induction order as [|i order IH]; intros Hff j e Hj; [by apply elem_of_nil in Hj|].
  cbn [omap list_omap] in Hff.
  apply elem_of_cons in Hj as [->|Hj].
  - intros Hi. by rewrite Hi in Hff.
  - apply IH; [|done]. by destruct (results !! i) as [[x|e0]|].
Qed.

End PromiseAll.

(** ** Text extraction *)

(** C5. [processImage] joins an array of lines with single line feeds in
    order, hands a string back unchanged, and turns any other result into
    the empty string; it rejects, with its own error, exactly when the
    recognition call throws.  The results [["A"; "B"]], ["C"] and [[]]
    become "A\nB", "C" and "". *)
Theorem C5_processImage_normalizes (recognize : string -> outcome OcrResult)
    (imagePath : string) :
  processImage recognize imagePath =
    match recognize imagePath with
    | Returns (ResArray lines) => Returns (String.concat nl lines)
    | Returns (ResString s) => Returns s
    | Returns ResOther => Returns ""
    | Throws _ => Throws (Error "Không thể xử lý ảnh")
    end
  /\ normalize (ResArray ["A"; "B"]) = "A" +:+ nl +:+ "B"
  /\ normalize (ResString "C") = "C"
  /\ normalize (ResArray []) = "".
Proof.
  split; [|done].
  unfold processImage, normalize.
  destruct (recognize imagePath) as [[lines|s|]|e]; [|done..].
  by rewrite join_concat.
Qed.

Lemma batch_results_returns (recognize : string -> outcome OcrResult)
    (assets : list ImageAsset) :
  (forall k e, k < length assets ->
     map (fun asset => processImage recognize (uri asset)) assets !! k <> Some (Throws e)) ->
  map (fun asset => processImage recognize (uri asset)) assets
  = map Returns (map (extracted recognize) assets).
Proof.
  intros Hok. apply list_eq. intros k.
  rewrite !list_lookup_fmap.
  destruct (assets !! k) as [asset|] eqn:Hk; [|done].
  specialize (Hok k). rewrite list_lookup_fmap, Hk in Hok. cbn in *.
  unfold processImage, extracted in *.
  destruct (recognize (uri asset)) as [r|e]; [done|].
  exfalso. eapply Hok; [|done]. by eapply lookup_lt_Some.
Qed.

(** A batch all of whose calls settle is settled, and how. *)
Lemma extractAll_settles (recognize : string -> outcome OcrResult)
    (order : list nat) (assets : list ImageAsset) :
  order ≡ₚ seq 0 (length assets) ->
  extractAll recognize order assets =
    match first_failure (map (fun asset => processImage recognize (uri asset)) assets) order with
    | Some e => Rejected e
    | None => Fulfilled (map (extracted recognize) assets)
    end.
Proof.
  intros Hperm. unfold extractAll.
  set (results := map _ assets).
  assert (Hcover : forall k, k < length results -> k ∈ order).
  { intros k Hk. rewrite Hperm. apply elem_of_seq.
    unfold results in Hk. rewrite length_map in Hk. lia. }
  destruct (first_failure results order) as [e|] eqn:Hff.
  - apply first_failure_Some in Hff as (pre & i & post & -> & Hi & Hpre).
    by apply Promise_all_rejects.
  - apply Promise_all_fulfils; [|done].
    apply batch_results_returns. intros k e Hk.
    eapply first_failure_None; [done|]. apply Hcover.
    unfold results. by rewrite length_map.
Qed.

(** C4. Whatever the order in which the recognition calls of a batch
    settle, the batch is fulfilled with one text per asset, the text at
    index [i] being the one extracted from asset [i], unless some call
    fails; then it is rejected with the error of the call that failed
    first, and there is no list of texts at all. *)
Theorem C4_batch_extraction (recognize : string -> outcome OcrResult)
    (order : list nat) (assets : list ImageAsset) :
  order ≡ₚ seq 0 (length assets) ->
  extractAll recognize order assets =
    match first_failure (map (fun asset => processImage recognize (uri asset)) assets) order with
    | Some e => Rejected e
    | None => Fulfilled (map (extracted recognize) assets)
    end.
Proof. apply extractAll_settles. Qed.

Lemma C4_batch_extraction_witness :
  extractAll sample_recognize [2; 0; 1] [photo1; photo2; photo3]
  = Fulfilled ["A" +:+ nl +:+ "B"; "C"; ""].
Proof.
  refine (C4_batch_extraction sample_recognize [2; 0; 1] [photo1; photo2; photo3] _).
  apply perm_trans with [0; 2; 1]; [apply perm_swap|apply perm_skip, perm_swap].
Defined.

(** ** The permission gate *)

(** The gate returns, leaves the state alone, and its trace holds no write
    to the state. *)
Lemma requestStoragePermission_runs (env : Collaborators) (st : SessionState) :
  exists granted tr,
    requestStoragePermission env st = (Normal granted, st, tr)
    /\ Forall (fun e => is_state_write e = false) tr.
Proof.
  unfold requestStoragePermission. unfold_task.
  destruct (Platform_OS env);
    try (by eexists _, _; split; [done|]; repeat constructor).
  destruct (PermissionsAndroid_request env READ_EXTERNAL_STORAGE) as [r|e1];
    destruct (PermissionsAndroid_request env WRITE_EXTERNAL_STORAGE) as [w|e2];
    cbn; eexists _, _; (split; [done|]); repeat constructor.
Qed.

(** C9. [requestStoragePermission] always returns a boolean and never
    throws.  Off Android it returns true without asking.  On Android it
    asks for read access and then for write access, and returns true
    exactly when both requests answer [GRANTED]; a refusal or an error of
    either request gives false. *)
Theorem C9_permission_gate (env : Collaborators) (st : SessionState) :
  exists granted : bool,
    result_of (requestStoragePermission env st) = Normal granted
    /\ state_of (requestStoragePermission env st) = st
    /\ (granted = true <->
          Platform_OS env <> android
          \/ (PermissionsAndroid_request env READ_EXTERNAL_STORAGE = Returns GRANTED
              /\ PermissionsAndroid_request env WRITE_EXTERNAL_STORAGE = Returns GRANTED))
    /\ permission_requests (trace_of (requestStoragePermission env st))
       = match Platform_OS env with
         | android =>
             match PermissionsAndroid_request env READ_EXTERNAL_STORAGE with
             | Returns _ => [READ_EXTERNAL_STORAGE; WRITE_EXTERNAL_STORAGE]
             | Throws _ => [READ_EXTERNAL_STORAGE]
             end
         | _ => []
         end.
Proof.
  unfold requestStoragePermission. unfold_task.
  destruct (Platform_OS env) eqn:Hos;
    try (exists true; cbn; split_and!; [done..|split; [by left|done]|done]).
  destruct (PermissionsAndroid_request env READ_EXTERNAL_STORAGE) as [[]|e1] eqn:Hr;
    destruct (PermissionsAndroid_request env WRITE_EXTERNAL_STORAGE) as [[]|e2] eqn:Hw;
    cbn; eexists; (split_and!; [done..| |done]);
    split; try done; try (by right); intros [?|[? ?]]; done.
Qed.

(** ** The busy flag *)

Lemma pickImages_loading (env : Collaborators) (st : SessionState) :
  completes (pickImages env st) = true ->
  loading (state_of (pickImages env st)) = false.
Proof.
  unfold pickImages, awaitExtractAll.
  destruct (requestStoragePermission_runs env st) as (granted & tr & Hperm & _).
  unfold_task. rewrite Hperm.
  destruct granted; cbn; [|done].
  destruct (launchImageLibrary env) as [[assets|]|e]; cbn; [|done..].
  destruct (extractAll _ _ assets) as [values remaining|texts|e]; cbn; done.
Qed.

Lemma pickImages_completes (env : Collaborators) (st : SessionState) :
  every_call_settles env -> completes (pickImages env st) = true.
Proof.
  intros Hsettle. unfold pickImages, awaitExtractAll.
  destruct (requestStoragePermission_runs env st) as (granted & tr & Hperm & _).
  unfold_task. rewrite Hperm.
  destruct granted; cbn; [|done].
  destruct (launchImageLibrary env) as [[assets|]|e] eqn:Hlaunch; cbn; [|done..].
  rewrite (extractAll_settles _ _ _ (Hsettle assets Hlaunch)).
  by destruct (first_failure _ _).
Qed.

(** [exportToPDF] always returns; it leaves the state as it found it but
    for the busy flag, which ends false. *)
Lemma exportToPDF_runs (env : Collaborators) (st : SessionState) :
  exists tr, exportToPDF env st = (Normal tt, set_loading false st, tr)
    /\ state_writes tr
       = if length (selectedImages st) =? 0 then [SetLoading false]
         else [SetLoading true; SetLoading false].
Proof.
  unfold exportToPDF. unfold_task. unfold set_loading.
  destruct (length (selectedImages st) =? 0); cbn; [by eexists|].
  destruct (RNHTMLtoPDF_convert env _) as [filePath|e]; cbn; [|by eexists].
  destruct (truthy_path filePath) as [path|]; cbn; [|by eexists].
  destruct (Clipboard_setString env path) as [[]|e]; cbn; by eexists.
Qed.

(** C6. Whenever [pickImages] or [exportToPDF] runs to its end, on
    whatever path, the busy flag is false afterwards.  [exportToPDF] always
    runs to its end, and so does [pickImages] when every recognition call
    settles. *)
Theorem C6_loading_cleared (env : Collaborators) (st : SessionState) :
  (completes (pickImages env st) = true ->
   loading (state_of (pickImages env st)) = false)
  /\ (every_call_settles env -> completes (pickImages env st) = true)
  /\ completes (exportToPDF env st) = true
  /\ loading (state_of (exportToPDF env st)) = false.
Proof.
  split_and!.
  - apply pickImages_loading.
  - apply pickImages_completes.
  - destruct (exportToPDF_runs env st) as (tr & -> & _). done.
  - destruct (exportToPDF_runs env st) as (tr & -> & _). done.
Qed.

Lemma C6_loading_cleared_witness :
  loading (state_of (pickImages (sample_env [photo2; blurred] [1; 0]) one_photo_state)) = false.
Proof.
  apply (proj1 (C6_loading_cleared (sample_env [photo2; blurred] [1; 0]) one_photo_state)).
  reflexivity.
Defined.

(** C7. While the busy flag is true, a press on the pick button or on the
    export button does nothing: the state stays as it is and no collaborator
    is called. *)
Theorem C7_busy_press_is_noop (env : Collaborators) (st : SessionState) :
  loading st = true ->
  press env PickButton st = (Normal tt, st, [])
  /\ press env ExportButton st = (Normal tt, st, []).
Proof.
  intros Hbusy. unfold press, rendered, disabled. by rewrite Hbusy.
Qed.

Lemma C7_busy_press_is_noop_witness :
  press (sample_env [photo2] [0]) PickButton busy_state = (Normal tt, busy_state, [])
  /\ press (sample_env [photo2] [0]) ExportButton busy_state = (Normal tt, busy_state, []).
Proof.
  apply (C7_busy_press_is_noop (sample_env [photo2] [0]) busy_state).
  reflexivity.
Defined.

(** C8. [exportToPDF] with no image selected returns normally after a
    single notice to the user; the converter is not called, the images and
    texts stay as they are, and the busy flag ends false. *)
Theorem C8_export_without_images (env : Collaborators) (st : SessionState) :
  selectedImages st = [] ->
  exportToPDF env st
  = (Normal tt, set_loading false st,
     [AlertAlert "Thông báo" "Vui lòng chọn ít nhất một ảnh"; SetLoading false])
  /\ filter (fun e => is_collaborator_call e = true) (trace_of (exportToPDF env st)) = [].
Proof.
  intros Hnone. unfold exportToPDF. unfold_task. by rewrite Hnone.
Qed.

Lemma C8_export_without_images_witness :
  exportToPDF (sample_env [] []) initialState
  = (Normal tt, initialState,
     [AlertAlert "Thông báo" "Vui lòng chọn ít nhất một ảnh"; SetLoading false])
  /\ filter (fun e => is_collaborator_call e = true)
       (trace_of (exportToPDF (sample_env [] []) initialState)) = [].
Proof.
  apply (C8_export_without_images (sample_env [] []) initialState).
  reflexivity.
Defined.

(** C10. [exportToPDF] leaves the selected images and the extracted texts
    exactly as they were, whatever the converter and the clipboard do; the
    only cell it writes is the busy flag, set to true when there is
    something to export and to false at the end. *)
Theorem C10_export_frame (env : Collaborators) (st : SessionState) :
  selectedImages (state_of (exportToPDF env st)) = selectedImages st
  /\ extractedTexts (state_of (exportToPDF env st)) = extractedTexts st
  /\ state_writes (trace_of (exportToPDF env st))
     = if length (selectedImages st) =? 0 then [SetLoading false]
       else [SetLoading true; SetLoading false].
Proof.
  destruct (exportToPDF_runs env st) as (tr & -> & Hwrites). done.
Qed.

(** ** The alignment of texts and images *)

(** A fulfilled batch holds the text of each asset, in the order of the
    assets, in whatever order the calls settled. *)
Lemma extractAll_fulfilled (recognize : string -> outcome OcrResult)
    (order : list nat) (assets : list ImageAsset) (texts : list string) :
  extractAll recognize order assets = Fulfilled texts ->
  texts = map (extracted recognize) assets.
Proof.
  unfold extractAll, Promise_all. intros Hf.
  set (results := map (fun asset => processImage recognize (uri asset)) assets) in *.
  pose proof (promise_inv_fold results order _ (promise_inv_start results)) as Hinv.
  rewrite Hf in Hinv. cbn in Hinv. unfold results in Hinv. clear Hf results.
  revert texts Hinv. induction assets as [|asset assets IH]; intros [|t texts] Hinv;
    try done.
  cbn in Hinv. injection Hinv as Ht Hrest. cbn. f_equal; [|by apply IH].
  unfold processImage, extracted in *.
  destruct (recognize (uri asset)); by simplify_eq.
Qed.

(** The scenario of three photos: the texts come out aligned with the
    images although the last call settles first. *)
Example pick_three_photos :
  state_of (pickImages (sample_env [photo1; photo2; photo3] [2; 0; 1]) initialState)
  = {| selectedImages := [photo1; photo2; photo3];
       extractedTexts := ["A" +:+ nl +:+ "B"; "C"; ""];
       loading := false |}.
Proof. reflexivity. Qed.


(** C1 fails on the code.  Picking one photo and then picking two, of
    which one cannot be read, leaves the two new images next to the one
    old text: [pickImages] stores the images before it awaits the batch and
    does not touch the texts when the batch is rejected. *)
Theorem C1_stale_texts_after_failed_batch :
  reachable stale_state
  /\ length (extractedTexts stale_state) <> 0
  /\ length (extractedTexts stale_state) <> length (selectedImages stale_state)
  /\ extractedTexts stale_state
     <> map (extracted sample_recognize) (selectedImages stale_state).
Proof.
  split_and!; [|done..].
  assert (H1 : reachable one_photo_state).
  { change one_photo_state
      with (state_of (press (sample_env [photo1] [0]) PickButton initialState)).
    by apply reachable_press; [apply reachable_init|]. }
  change stale_state
    with (state_of (press (sample_env [photo2; blurred] [1; 0]) PickButton one_photo_state)).
  by apply reachable_press.
Qed.

(** ** The composed document *)

Lemma plain_quote_free (s : string) : plain s = true -> quote_free s = true.
Proof.
  induction s as [|c s IH]; [done|]. cbn.
  intros [[Hq _]%andb_true_iff Hs]%andb_true_iff. rewrite Hq. by apply IH.
Qed.

Lemma run_app (s1 s2 : string) : forall r, run r (s1 +:+ s2) = run (run r s1) s2.
Proof.
  induction s1 as [|c s1 IH]; intros r; [done|].
  rewrite string_app_cons. cbn [run]. apply IH.
Qed.

(** Inside a quoted attribute value, text without a quote is collected as
    it is. *)
Lemma run_value (s : string) : forall kind name attrs attr acc ns fs,
  quote_free s = true ->
  run {| mode := InAttrValue kind name attrs attr acc; nodes := ns;
         open_elements := fs; intact := true |} s
  = {| mode := InAttrValue kind name attrs attr (push_chars s acc); nodes := ns;
       open_elements := fs; intact := true |}.
Proof.
  induction s as [|c s IH]; intros kind name attrs attr acc ns fs Hq; [done|].
  cbn [quote_free] in Hq. apply andb_true_iff in Hq as [Hc Hs].
  apply negb_true_iff in Hc.
  cbn [run push_chars]. rewrite <- (IH kind name attrs attr (c :: acc) ns fs Hs).
  f_equal. unfold step. cbn. by rewrite Hc.
Qed.

(** The three fixed pieces of the template, around the type and the
    payload. *)
Lemma pageTemplate_pieces (image : ImageAsset) :
  pageTemplate image
  = templateOpen +:+ type image +:+ ";base64," +:+ base64 image +:+ templateClose.
Proof. reflexivity. Qed.

Lemma run_template_open (acc : list ascii) (ns : list node) (fs : list frame) :
  run (in_text acc ns fs) templateOpen
  = {| mode := InAttrValue StartTag "img" [] "src" (push_chars "data:" []);
       nodes := [TextNode "
          "];
       open_elements :=
         {| frame_name := "div"; frame_attributes := [("class", "page")];
            frame_before := TextNode (unrev_onto acc templateStart) :: ns |} :: fs;
       intact := true |}.
Proof. reflexivity. Qed.

Lemma run_template_close (acc : list ascii) (before : list node) (fs : list frame) :
  run {| mode := InAttrValue StartTag "img" [] "src" acc;
         nodes := [TextNode "
          "];
         open_elements :=
           {| frame_name := "div"; frame_attributes := [("class", "page")];
              frame_before := before |} :: fs;
         intact := true |}
      templateClose
  = in_text (push_chars templateEnd [])
      (Element "div" [("class", "page")]
         [TextNode "
          ";
          Element "img" [("src", unrev acc)] [];
          TextNode "
        "] :: before) fs.
Proof. reflexivity. Qed.

(** Reading one template adds one page block. *)
Lemma run_template (image : ImageAsset) (acc : list ascii) (ns : list node) (fs : list frame) :
  well_formed_asset image = true ->
  run (in_text acc ns fs) (pageTemplate image)
  = in_text (push_chars templateEnd [])
      (page_block image :: TextNode (unrev_onto acc templateStart) :: ns) fs.
Proof.
  intros [Htype%plain_quote_free Hpayload%plain_quote_free]%andb_true_iff.
  rewrite pageTemplate_pieces, !run_app.
  rewrite run_template_open, (run_value _ _ _ _ _ _ _ _ Htype).
  rewrite (run_value ";base64," _ _ _ _ _ _ _ eq_refl).
  rewrite (run_value _ _ _ _ _ _ _ _ Hpayload), run_template_close.
  unfold page_block, dataURI, unrev.
  by rewrite !unrev_onto_push, string_app_nil_r.
Qed.

(** The loop of [generateHTMLContent] appends the templates in order. *)
Lemma forEach_appends (images : list ImageAsset) : forall htmlContent,
  fold_left (fun htmlContent image => htmlContent +:+ pageTemplate image) images htmlContent
  = htmlContent +:+ pagesText images.
Proof.
  induction images as [|image images IH]; intros htmlContent; cbn [fold_left pagesText foldr].
  - by rewrite string_app_nil_r.
  - by rewrite IH, string_app_assoc.
Qed.

Lemma generateHTMLContent_text (images : list ImageAsset) :
  generateHTMLContent images = htmlHead +:+ pagesText images +:+ htmlTail.
Proof.
  unfold generateHTMLContent. by rewrite forEach_appends, string_app_assoc.
Qed.

Lemma run_pages (images : list ImageAsset) : forall acc ns fs,
  well_formed_assets images ->
  run (in_text acc ns fs) (pagesText images)
  = in_text (pages_read acc ns images).1 (pages_read acc ns images).2 fs.
Proof.
  induction images as [|image images IH]; intros acc ns fs Hwf; [done|].
  apply Forall_cons in Hwf as [Himage Hwf].
  cbn [pagesText foldr pages_read]. rewrite run_app, run_template by done.
  by apply IH.
Qed.

(** The nodes read in [<body>], oldest first, once the text that is still
    pending has been added. *)
Lemma pages_read_children (images : list ImageAsset) : forall acc ns,
  rev (TextNode (unrev_onto (pages_read acc ns images).1 templateStart)
       :: (pages_read acc ns images).2)
  = rev ns ++ TextNode (unrev_onto acc templateStart)
      :: flat_map (fun image => [page_block image; TextNode "
      
        "]) images.
Proof.
  induction images as [|image images IH]; intros acc ns; [done|].
  cbn [pages_read flat_map]. rewrite IH. cbn [rev].
  by rewrite <- !app_assoc.
Qed.

Lemma run_head :
  run start_reader htmlHead = in_text (push_chars "
    " []) [] open_after_head.
Proof. vm_compute. reflexivity. Qed.

Lemma finish_tail (acc : list ascii) (ns : list node) :
  finish (run (in_text acc ns open_after_head) htmlTail)
  = Some (document_of (rev (TextNode (unrev_onto acc templateStart) :: ns))).
Proof. vm_compute. reflexivity. Qed.

(** The text [generateHTMLContent] returns for well-formed assets reads
    back as the document with one page block per image, in order. *)
Lemma parse_generateHTMLContent (images : list ImageAsset) :
  well_formed_assets images ->
  parse (generateHTMLContent images) = Some (document images).
Proof.
  intros Hwf. unfold parse.
  rewrite generateHTMLContent_text, !run_app, run_head, run_pages by done.
  rewrite finish_tail, pages_read_children. done.
Qed.

Lemma body_elements_document_of (body : list node) :
  body_elements (document_of body) = Some (child_elements body).
Proof. reflexivity. Qed.

Lemma child_elements_body (images : list ImageAsset) :
  child_elements (body_children images) = map page_block images.
Proof.
  unfold child_elements, body_children.
  rewrite filter_cons_False by (cbn; congruence).
  induction images as [|image images IH]; [done|].
  cbn [flat_map app map].
  rewrite filter_cons_True by done.
  rewrite filter_cons_False by (cbn; congruence).
  by rewrite IH.
Qed.

(** C2. For well-formed assets (MIME type and payload are plain text),
    the text returned by [generateHTMLContent] is the head, one template per
    image in order, and the tail; read back as a document, its body holds
    exactly one page block per image, in the order of the list, and the
    only element in the block of an image is an [img] whose [src] is
    [data:] + its MIME type + [;base64,] + its payload. *)
Theorem C2_one_page_block_per_image (images : list ImageAsset) :
  well_formed_assets images ->
  generateHTMLContent images = htmlHead +:+ pagesText images +:+ htmlTail
  /\ exists doc,
       parse (generateHTMLContent images) = Some doc
       /\ body_elements doc = Some (map page_block images)
       /\ Forall (fun image =>
            child_elements (children_of (page_block image))
            = [Element "img"
                 [("src", "data:" +:+ type image +:+ ";base64," +:+ base64 image)] []])
            images.
Proof.
  intros Hwf. split; [apply generateHTMLContent_text|].
  exists (document images). split_and!.
  - by apply parse_generateHTMLContent.
  - unfold document. by rewrite body_elements_document_of, child_elements_body.
  - apply Forall_forall. intros image _. reflexivity.
Qed.

Lemma C2_one_page_block_per_image_witness :
  exists doc,
    parse (generateHTMLContent [photo1; photo2]) = Some doc
    /\ body_elements doc = Some [page_block photo1; page_block photo2].
Proof.
  destruct (C2_one_page_block_per_image [photo1; photo2]) as (_ & doc & Hdoc & Hbody & _).
  - repeat constructor.
  - exists doc. split; [exact Hdoc|exact Hbody].
Defined.

(** ** Page breaks *)

Lemma parse_css_styleText : parse_css styleText = Some styleSheet.
Proof. reflexivity. Qed.

Lemma style_text_document_of (body : list node) :
  style_text (document_of body) = Some styleText.
Proof. reflexivity. Qed.

(** The cascade on a page block: [.page] asks for a break, and
    [.page:last-child], which is more specific, takes it back for the last
    block. *)
Lemma forced_break_page_block (image : ImageAsset) (i n : nat) :
  forced_break_after styleSheet (page_block image) i n = negb (i + 1 =? n).
Proof.
  unfold forced_break_after, cascade, styleSheet. cbn [fold_left].
  unfold selector_matches, page_block.
  destruct (i + 1 =? n); reflexivity.
Qed.

Lemma page_breaks_document (images : list ImageAsset) :
  page_breaks (document images) = Some (breaks_between (length images)).
Proof.
  unfold page_breaks, document.
  rewrite style_text_document_of. cbn [mbind option_bind].
  rewrite parse_css_styleText. cbn [mbind option_bind].
  rewrite body_elements_document_of, child_elements_body. cbn [mbind option_bind].
  f_equal. rewrite length_map. apply list_eq. intros i.
  rewrite list_lookup_imap, list_lookup_fmap.
  destruct (images !! i) as [image|] eqn:Hi; cbn.
  - rewrite forced_break_page_block.
    apply lookup_lt_Some in Hi.
    destruct (length images) as [|m]; [lia|]. cbn [breaks_between].
    destruct (Nat.eqb_spec (i + 1) (S m)) as [Heq|Hne]; cbn.
    + assert (i = m) as -> by lia.
      rewrite lookup_app_r by (by rewrite length_replicate).
      by rewrite length_replicate, Nat.sub_diag.
    + rewrite lookup_app_l by (rewrite length_replicate; lia).
      symmetry. apply lookup_replicate. split; [done|lia].
  - apply lookup_ge_None in Hi. symmetry. apply lookup_ge_None.
    destruct (length images) as [|m]; cbn; [lia|].
    rewrite length_app, length_replicate. cbn. lia.
Qed.

Lemma breaks_between_count (n : nat) :
  length (filter (fun b => b = true) (breaks_between n)) = n - 1.
Proof.
  destruct n as [|m]; [done|]. cbn [breaks_between].
  rewrite filter_app, length_app.
  rewrite filter_cons_False by done. cbn.
  assert (Hrep : forall k, length (filter (fun b => b = true) (replicate k true)) = k).
  { induction k as [|k IH]; [done|]. cbn [replicate].
    rewrite filter_cons_True by done. cbn. by rewrite IH. }
  rewrite Hrep. lia.
Qed.

(** C3. For well-formed assets, the style sheet of the composed document
    forces a page break after every page block but the last: with N images
    there are N - 1 breaks, one between each two consecutive blocks and none
    after the last (none at all for N = 0).  For the empty list the
    function returns the head followed by the tail, which reads back as a
    document whose body holds no page block. *)
Theorem C3_page_breaks (images : list ImageAsset) :
  well_formed_assets images ->
  breaks_of (generateHTMLContent images) = Some (breaks_between (length images))
  /\ length (filter (fun b => b = true) (breaks_between (length images)))
     = length images - 1
  /\ last (breaks_between (length images)) <> Some true
  /\ generateHTMLContent [] = htmlHead +:+ htmlTail
  /\ parse (generateHTMLContent []) = Some (document [])
  /\ body_elements (document []) = Some [].
Proof.
  intros Hwf. split_and!; try reflexivity.
  - unfold breaks_of. rewrite parse_generateHTMLContent by done.
    apply page_breaks_document.
  - apply breaks_between_count.
  - destruct (length images) as [|m]; [done|].
    cbn [breaks_between]. by rewrite last_snoc.
Qed.

Lemma C3_page_breaks_witness :
  breaks_of (generateHTMLContent [photo1; photo2; photo3]) = Some [true; true; false].
Proof.
  apply (C3_page_breaks [photo1; photo2; photo3]).
  repeat constructor.
Defined.

(** * Further properties of the handlers *)

(** ** The handlers, path by path *)

(** The gate returns, leaves the state alone, and does nothing but ask for
    permissions and write to the console. *)
Lemma requestStoragePermission_trace (env : Collaborators) (st : SessionState) :
  exists granted tr,
    requestStoragePermission env st = (Normal granted, st, tr)
    /\ Forall (fun e => is_gate_event e = true) tr.
Proof.
  unfold requestStoragePermission. unfold_task.
  destruct (Platform_OS env);
    try (by eexists _, _; split; [done|]; repeat constructor).
  destruct (PermissionsAndroid_request env READ_EXTERNAL_STORAGE) as [r|e1];
    destruct (PermissionsAndroid_request env WRITE_EXTERNAL_STORAGE) as [w|e2];
    cbn; eexists _, _; (split; [done|]); repeat constructor.
Qed.

(** [pickImages], one case per path through it. *)
Lemma pickImages_paths (env : Collaborators) (st : SessionState) (granted : bool)
    (tr : list event) :
  requestStoragePermission env st = (Normal granted, st, tr) ->
  pickImages env st =
    if granted then
      match launchImageLibrary env with
      | Returns (Some assets) =>
          let started :=
            tr ++ [SetLoading true; LaunchImageLibrary; SetSelectedImages assets]
               ++ map (fun asset => Recognize (uri asset)) assets in
          match extractAll (TextRecognition_recognize env) (completion_order env) assets with
          | Fulfilled texts =>
              (Normal tt, with_results assets texts false,
               started ++ [SetExtractedTexts texts; SetLoading false])
          | Rejected e =>
              (Normal tt, with_results assets (extractedTexts st) false,
               started ++ [ConsoleError "Error processing image:";
                           ConsoleError "Error picking images:";
                           AlertAlert "Lỗi" "Có lỗi xảy ra khi xử lý ảnh";
                           SetLoading false])
          | Waiting _ _ =>
              (Pending, with_results assets (extractedTexts st) true, started)
          end
      | Returns None =>
          (Normal tt, set_loading false st,
           tr ++ [SetLoading true; LaunchImageLibrary; SetLoading false])
      | Throws e =>
          (Normal tt, set_loading false st,
           tr ++ [SetLoading true; LaunchImageLibrary;
                  ConsoleError "Error picking images:";
                  AlertAlert "Lỗi" "Có lỗi xảy ra khi xử lý ảnh";
                  SetLoading false])
      end
    else
      (Normal tt, set_loading false st,
       tr ++ [AlertAlert "Thông báo" "Bạn cần cấp quyền để sử dụng tính năng này";
              SetLoading false]).
Proof.
  intros Hgate. unfold pickImages, awaitExtractAll. unfold_task. rewrite Hgate.
  destruct granted; cbn; [|by rewrite <- ?app_assoc].
  destruct (launchImageLibrary env) as [[assets|]|e]; cbn;
    [|by rewrite <- ?app_assoc..].
  destruct (extractAll _ _ assets) as [values remaining|texts|e]; cbn;
    unfold with_results; rewrite ?app_nil_r, <- ?app_assoc; cbn;
    by rewrite <- ?app_assoc.
Qed.

Lemma gate_events_silent (tr : list event) :
  Forall (fun e => is_gate_event e = true) tr ->
  recognize_calls tr = [] /\ alerts tr = [] /\ convert_calls tr = []
  /\ clipboard_calls tr = [] /\ state_writes tr = []
  /\ Forall (fun e => e <> LaunchImageLibrary) tr.
Proof.
  induction 1 as [|e tr He _ (IH1 & IH2 & IH3 & IH4 & IH5 & IH6)]; [by repeat split|].
  unfold recognize_calls, alerts, convert_calls, clipboard_calls, state_writes in *.
  destruct e; try discriminate He;
    (split_and!; [exact IH1|exact IH2|exact IH3|exact IH4| |by constructor]);
    by rewrite filter_cons_False.
Qed.

Lemma alerts_app (tr1 tr2 : list event) : alerts (tr1 ++ tr2) = alerts tr1 ++ alerts tr2.
Proof. apply omap_app. Qed.

Lemma recognize_calls_app (tr1 tr2 : list event) :
  recognize_calls (tr1 ++ tr2) = recognize_calls tr1 ++ recognize_calls tr2.
Proof. apply omap_app. Qed.

Lemma convert_calls_app (tr1 tr2 : list event) :
  convert_calls (tr1 ++ tr2) = convert_calls tr1 ++ convert_calls tr2.
Proof. apply omap_app. Qed.

Lemma clipboard_calls_app (tr1 tr2 : list event) :
  clipboard_calls (tr1 ++ tr2) = clipboard_calls tr1 ++ clipboard_calls tr2.
Proof. apply omap_app. Qed.

Lemma gate_result (env : Collaborators) (st : SessionState) (granted : bool) :
  result_of (requestStoragePermission env st) = Normal granted ->
  exists tr,
    requestStoragePermission env st = (Normal granted, st, tr)
    /\ Forall (fun e => is_gate_event e = true) tr.
Proof.
  destruct (requestStoragePermission_trace env st) as (g & tr & Hrun & Hev).
  rewrite Hrun. cbn. intros [= ->]. by exists tr.
Qed.

(** X1. Without the permission [pickImages] stops after one notice: the
    picker is not opened, nothing is recognized, and images and texts stay
    as they are. *)
Theorem pick_without_permission (env : Collaborators) (st : SessionState) :
  result_of (requestStoragePermission env st) = Normal false ->
  pickImages env st
  = (Normal tt, set_loading false st,
     trace_of (requestStoragePermission env st)
     ++ [AlertAlert "Thông báo" "Bạn cần cấp quyền để sử dụng tính năng này";
         SetLoading false]).
Proof.
  intros (tr & Hrun & _)%gate_result.
  rewrite (pickImages_paths env st false tr Hrun). by rewrite Hrun.
Qed.

Lemma pick_without_permission_witness :
  pickImages refusing_env one_photo_state
  = (Normal tt, one_photo_state,
     [PermissionRequest READ_EXTERNAL_STORAGE; PermissionRequest WRITE_EXTERNAL_STORAGE;
      AlertAlert "Thông báo" "Bạn cần cấp quyền để sử dụng tính năng này";
      SetLoading false]).
Proof.
  apply (pick_without_permission refusing_env one_photo_state).
  reflexivity.
Defined.

(** X2. When the user leaves the picker without choosing (no [assets] in
    the result), [pickImages] ends silently: no notice, no recognition
    call, images and texts as before. *)
Theorem pick_cancelled (env : Collaborators) (st : SessionState) :
  result_of (requestStoragePermission env st) = Normal true ->
  launchImageLibrary env = Returns None ->
  pickImages env st
  = (Normal tt, set_loading false st,
     trace_of (requestStoragePermission env st)
     ++ [SetLoading true; LaunchImageLibrary; SetLoading false]).
Proof.
  intros (tr & Hrun & _)%gate_result Hlaunch.
  rewrite (pickImages_paths env st true tr Hrun), Hlaunch. by rewrite Hrun.
Qed.

Lemma pick_cancelled_witness :
  pickImages (ios_env (Returns None) (Returns None) (Returns tt)) one_photo_state
  = (Normal tt, one_photo_state, [SetLoading true; LaunchImageLibrary; SetLoading false]).
Proof.
  apply (pick_cancelled (ios_env (Returns None) (Returns None) (Returns tt)) one_photo_state);
    reflexivity.
Defined.

(** X3. When the picker itself fails, [pickImages] reports it in one
    notice and leaves images and texts as they were. *)
Theorem pick_picker_failure (env : Collaborators) (st : SessionState) (e : JsError) :
  result_of (requestStoragePermission env st) = Normal true ->
  launchImageLibrary env = Throws e ->
  pickImages env st
  = (Normal tt, set_loading false st,
     trace_of (requestStoragePermission env st)
     ++ [SetLoading true; LaunchImageLibrary;
         ConsoleError "Error picking images:";
         AlertAlert "Lỗi" "Có lỗi xảy ra khi xử lý ảnh";
         SetLoading false]).
Proof.
  intros (tr & Hrun & _)%gate_result Hlaunch.
  rewrite (pickImages_paths env st true tr Hrun), Hlaunch. by rewrite Hrun.
Qed.

Lemma pick_picker_failure_witness :
  state_of (pickImages (ios_env (Throws (Error "no gallery")) (Returns None) (Returns tt))
                       one_photo_state)
  = one_photo_state.
Proof.
  rewrite (pick_picker_failure
             (ios_env (Throws (Error "no gallery")) (Returns None) (Returns tt))
             one_photo_state (Error "no gallery")); reflexivity.
Defined.

(** An empty batch is fulfilled at once, whatever settles. *)
Lemma extractAll_nil (recognize : string -> outcome OcrResult) (order : list nat) :
  extractAll recognize order [] = Fulfilled [].
Proof. unfold extractAll, Promise_all. cbn. apply fold_settle_fulfilled. Qed.

(** X4. A picker result with an empty [assets] array is not a
    cancellation: it clears both the images and the texts, without a
    notice. *)
Theorem pick_empty_selection (env : Collaborators) (st : SessionState) :
  result_of (requestStoragePermission env st) = Normal true ->
  launchImageLibrary env = Returns (Some []) ->
  result_of (pickImages env st) = Normal tt
  /\ state_of (pickImages env st) = initialState
  /\ alerts (trace_of (pickImages env st)) = [].
Proof.
  intros (tr & Hrun & Hev)%gate_result Hlaunch.
  rewrite (pickImages_paths env st true tr Hrun), Hlaunch, extractAll_nil.
  split_and!; [done..|]. cbn -[alerts]. rewrite !alerts_app.
  apply gate_events_silent in Hev as (_ & Halerts & _). by rewrite Halerts.
Qed.

Lemma pick_empty_selection_witness :
  state_of (pickImages (ios_env (Returns (Some [])) (Returns None) (Returns tt))
                       one_photo_state)
  = initialState.
Proof.
  apply (pick_empty_selection (ios_env (Returns (Some [])) (Returns None) (Returns tt))
                              one_photo_state); reflexivity.
Defined.

(** ** The batch *)

Lemma processImage_throws (recognize : string -> outcome OcrResult) (imagePath : string)
    (e : JsError) :
  processImage recognize imagePath = Throws e <->
  returns (recognize imagePath) = false /\ e = Error "Không thể xử lý ảnh".
Proof.
  unfold processImage. destruct (recognize imagePath); cbn; split.
  - done.
  - by intros [? _].
  - by intros [= <-].
  - by intros [_ ->].
Qed.

(** The outcome of a batch all of whose calls settle, without reference to
    the order in which they do. *)
Lemma extractAll_by_outcomes (recognize : string -> outcome OcrResult)
    (order : list nat) (assets : list ImageAsset) :
  order ≡ₚ seq 0 (length assets) ->
  extractAll recognize order assets =
    if all_recognized recognize assets
    then Fulfilled (map (extracted recognize) assets)
    else Rejected (Error "Không thể xử lý ảnh").
Proof.
  intros Hperm. rewrite (extractAll_settles _ _ _ Hperm).
  set (results := map (fun asset => processImage recognize (uri asset)) assets).
  destruct (first_failure results order) as [e|] eqn:Hff.
  - apply first_failure_Some in Hff as (pre & i & post & _ & Hi & _).
    unfold results in Hi. rewrite list_lookup_fmap in Hi.
    destruct (assets !! i) as [asset|] eqn:Ha; [|done].
    cbn in Hi. injection Hi as Hi. apply processImage_throws in Hi as [Hret ->].
    assert (Hall : all_recognized recognize assets = false).
    { apply not_true_is_false. intros Hall.
      unfold all_recognized in Hall. rewrite forallb_forall in Hall.
      specialize (Hall asset). rewrite Hret in Hall.
      apply diff_false_true, Hall. apply list_elem_of_In.
      by eapply list_elem_of_lookup_2. }
    by rewrite Hall.
  - assert (Hall : all_recognized recognize assets = true).
    { unfold all_recognized. apply forallb_forall. intros asset Hin.
      apply list_elem_of_In, list_elem_of_lookup in Hin as [k Hk].
      destruct (returns (recognize (uri asset))) eqn:Hret; [done|].
      exfalso. eapply (first_failure_None results order Hff k).
      - rewrite Hperm. apply elem_of_seq. apply lookup_lt_Some in Hk. lia.
      - unfold results. rewrite list_lookup_fmap, Hk. cbn. f_equal.
        by apply processImage_throws. }
    by rewrite Hall.
Qed.

(** X5. When the permission is given, the user picks [assets], and every
    recognition call returns, [pickImages] replaces the images by [assets]
    and the texts by one text per asset, in the order of the assets,
    whatever the state was and in whatever order the calls settled; no
    notice is shown. *)
Theorem pick_replaces_results (env : Collaborators) (st : SessionState)
    (assets : list ImageAsset) :
  result_of (requestStoragePermission env st) = Normal true ->
  launchImageLibrary env = Returns (Some assets) ->
  completion_order env ≡ₚ seq 0 (length assets) ->
  all_recognized (TextRecognition_recognize env) assets = true ->
  result_of (pickImages env st) = Normal tt
  /\ state_of (pickImages env st)
     = with_results assets (map (extracted (TextRecognition_recognize env)) assets) false
  /\ alerts (trace_of (pickImages env st)) = [].
Proof.
  intros (tr & Hrun & Hev)%gate_result Hlaunch Hperm Hall.
  rewrite (pickImages_paths env st true tr Hrun), Hlaunch.
  rewrite (extractAll_by_outcomes _ _ _ Hperm), Hall.
  split_and!; [done..|]. cbn -[alerts]. rewrite !alerts_app.
  apply gate_events_silent in Hev as (_ & -> & _). cbn.
  rewrite app_nil_r. clear. induction assets as [|asset assets IH]; [done|]. exact IH.
Qed.

Lemma pick_replaces_results_witness :
  state_of (pickImages (sample_env [photo1; photo2; photo3] [2; 0; 1]) one_photo_state)
  = with_results [photo1; photo2; photo3] ["A" +:+ nl +:+ "B"; "C"; ""] false.
Proof.
  apply (pick_replaces_results (sample_env [photo1; photo2; photo3] [2; 0; 1])
           one_photo_state [photo1; photo2; photo3]); try reflexivity.
  apply perm_trans with [0; 2; 1]; [apply perm_swap|apply perm_skip, perm_swap].
Defined.

(** X6. When some recognition call fails, [pickImages] ends with the new
    images next to the texts it started with: the images are stored before
    the batch is awaited and the texts are written only when it is
    fulfilled.  The user gets a single notice. *)
Theorem pick_failed_batch_keeps_texts (env : Collaborators) (st : SessionState)
    (assets : list ImageAsset) :
  result_of (requestStoragePermission env st) = Normal true ->
  launchImageLibrary env = Returns (Some assets) ->
  completion_order env ≡ₚ seq 0 (length assets) ->
  all_recognized (TextRecognition_recognize env) assets = false ->
  result_of (pickImages env st) = Normal tt
  /\ state_of (pickImages env st) = with_results assets (extractedTexts st) false
  /\ alerts (trace_of (pickImages env st)) = [("Lỗi", "Có lỗi xảy ra khi xử lý ảnh")].
Proof.
  intros (tr & Hrun & Hev)%gate_result Hlaunch Hperm Hall.
  rewrite (pickImages_paths env st true tr Hrun), Hlaunch.
  rewrite (extractAll_by_outcomes _ _ _ Hperm), Hall.
  split_and!; [done..|]. cbn -[alerts]. rewrite !alerts_app.
  apply gate_events_silent in Hev as (_ & -> & _). cbn.
  clear. induction assets as [|asset assets IH]; [done|]. exact IH.
Qed.

Lemma pick_failed_batch_keeps_texts_witness :
  state_of (pickImages (sample_env [photo2; blurred] [1; 0]) one_photo_state)
  = with_results [photo2; blurred] ["A" +:+ nl +:+ "B"] false.
Proof.
  apply (pick_failed_batch_keeps_texts (sample_env [photo2; blurred] [1; 0])
           one_photo_state [photo2; blurred]); try reflexivity.
  apply perm_swap.
Defined.

(** X7. [pickImages] starts exactly one recognition call per picked asset,
    on its [uri] and in the order of the assets, before it awaits any of
    them: a call that fails does not keep the later ones from being made. *)
Theorem pick_recognizes_every_asset (env : Collaborators) (st : SessionState)
    (assets : list ImageAsset) :
  result_of (requestStoragePermission env st) = Normal true ->
  launchImageLibrary env = Returns (Some assets) ->
  recognize_calls (trace_of (pickImages env st)) = map uri assets.
Proof.
  intros (tr & Hrun & Hev)%gate_result Hlaunch.
  rewrite (pickImages_paths env st true tr Hrun), Hlaunch.
  apply gate_events_silent in Hev as (Hnone & _).
  assert (Hcalls : recognize_calls (map (fun asset => Recognize (uri asset)) assets)
                   = map uri assets).
  { clear. induction assets as [|asset assets IH]; [done|]. cbn. by rewrite <- IH. }
  destruct (extractAll _ _ assets); cbv zeta; unfold trace_of; cbn [snd];
    rewrite !recognize_calls_app, Hnone, Hcalls; cbn; by rewrite ?app_nil_r.
Qed.

Lemma pick_recognizes_every_asset_witness :
  recognize_calls (trace_of (pickImages (sample_env [blurred; photo2] [0; 1]) initialState))
  = ["file:///photos/blurred.jpg"; "file:///photos/2.jpg"].
Proof.
  apply (pick_recognizes_every_asset (sample_env [blurred; photo2] [0; 1]) initialState
           [blurred; photo2]); reflexivity.
Defined.

Section PromiseAllWaits.
Context {A : Type}.
Variable results : list (outcome A).

(** Settling an input leaves the slots of the others alone. *)
Lemma settle_other (values values' : list (option A)) (remaining remaining' i k : nat) :
  Promise_all_settle results (Waiting values remaining) i = Waiting values' remaining' ->
  k <> i -> values' !! k = values !! k.
Proof.
  unfold Promise_all_settle. intros Hs Hne.
  repeat case_match; simplify_eq; try done.
  by apply list_lookup_insert_ne.
Qed.

(** A combined promise is fulfilled only once every input it awaited has
    settled. *)
Lemma fold_fulfilled_covers (order : list nat) : forall values remaining v k,
  promise_inv results (Waiting values remaining) ->
  fold_left (Promise_all_settle results) order (Waiting values remaining) = Fulfilled v ->
  values !! k = Some None -> k ∈ order.
Proof.
  induction order as [|i order IH]; intros values remaining v k Hinv Hf Hk; [done|].
  cbn [fold_left] in Hf.
  destruct (decide (k = i)) as [->|Hne]; [by apply elem_of_cons; left|].
  apply elem_of_cons. right.
  pose proof (promise_inv_settle results _ i Hinv) as Hinv'.
  destruct (Promise_all_settle results (Waiting values remaining) i)
    as [values' remaining'|v'|e] eqn:Hs.
  - eapply IH; [exact Hinv'|exact Hf|].
    by rewrite (settle_other _ _ _ _ _ _ Hs Hne).
  - exfalso. destruct Hinv as (_ & Hrem & _ & _).
    unfold Promise_all_settle in Hs.
    destruct (values !! i) as [[x|]|] eqn:Hi; [done| |done].
    destruct (results !! i) as [[x|e]|]; [|done..].
    destruct (Nat.eqb_spec remaining 1) as [H1|H1]; [|done].
    pose proof (none_count_insert values i x Hi) as Hcount.
    assert (H0 : none_count (<[i:=Some x]> values) = 0) by lia.
    eapply (none_count_zero _ H0 k).
    by rewrite list_lookup_insert_ne.
  - by rewrite fold_settle_rejected in Hf.
Qed.

(** When some input never settles and none of those that settle rejects,
    the combined promise stays pending. *)
Lemma Promise_all_waits (order : list nat) (k : nat) :
  k < length results -> k ∉ order ->
  (forall j e, j ∈ order -> results !! j <> Some (Throws e)) ->
  exists values remaining, Promise_all results order = Waiting values remaining.
Proof.
  intros Hk Hnot Hok. unfold Promise_all.
  destruct (fold_left _ order _) as [values remaining|v|e] eqn:Hf.
  - by eexists _, _.
  - exfalso. apply Hnot. unfold Promise_all_start in Hf.
    destruct (Nat.eqb_spec (length results) 0) as [H0|H0]; [lia|].
    eapply (fold_fulfilled_covers order _ _ v k); [|exact Hf|].
    + pose proof (promise_inv_start results) as Hinv.
      unfold Promise_all_start in Hinv.
      by destruct (Nat.eqb_spec (length results) 0).
    + by apply lookup_replicate.
  - exfalso. eapply (fold_not_rejected results order); [exact Hok| |exact Hf].
    intros e'. unfold Promise_all_start. by destruct (length results =? 0).
Qed.

End PromiseAllWaits.

(** X8. There is no timeout: when the recognition call of some asset never
    settles and none of the calls that do settle fails, [pickImages] never
    comes back; the busy flag stays true, with the new images already
    stored and the texts not yet written. *)
Theorem pick_hangs_on_unsettled_call (env : Collaborators) (st : SessionState)
    (assets : list ImageAsset) (k : nat) :
  result_of (requestStoragePermission env st) = Normal true ->
  launchImageLibrary env = Returns (Some assets) ->
  k < length assets -> k ∉ completion_order env ->
  (forall j asset, j ∈ completion_order env -> assets !! j = Some asset ->
     returns (TextRecognition_recognize env (uri asset)) = true) ->
  result_of (pickImages env st) = Pending
  /\ state_of (pickImages env st) = with_results assets (extractedTexts st) true.
Proof.
  intros (tr & Hrun & _)%gate_result Hlaunch Hk Hnot Hok.
  rewrite (pickImages_paths env st true tr Hrun), Hlaunch.
  destruct (Promise_all_waits
              (map (fun asset => processImage (TextRecognition_recognize env) (uri asset)) assets)
              (completion_order env) k) as (values & remaining & Hwait).
  - by rewrite length_map.
  - done.
  - intros j e Hj. rewrite list_lookup_fmap.
    destruct (assets !! j) as [asset|] eqn:Ha; [|done]. cbn. intros [= He].
    apply processImage_throws in He as [He _].
    by rewrite (Hok j asset Hj Ha) in He.
  - unfold extractAll. by rewrite Hwait.
Qed.

Lemma pick_hangs_on_unsettled_call_witness :
  result_of (pickImages (sample_env [photo1; photo2] [1]) initialState) = Pending
  /\ state_of (pickImages (sample_env [photo1; photo2] [1]) initialState)
     = with_results [photo1; photo2] [] true.
Proof.
  apply (pick_hangs_on_unsettled_call (sample_env [photo1; photo2] [1]) initialState
           [photo1; photo2] 0); try reflexivity.
  - cbn. lia.
  - cbn. intros [Heq|Hin]%elem_of_cons; [discriminate Heq|by apply elem_of_nil in Hin].
  - intros j asset Hj Ha. cbn in Hj.
    apply elem_of_cons in Hj as [->|Hj]; [|by apply elem_of_nil in Hj].
    cbn in Ha. injection Ha as <-. reflexivity.
Defined.

(** X9. The order in which the recognition calls settle cannot be
    observed: two runs of [pickImages] that differ only in that order (each
    call settling once in both) end with the same result, the same state
    and the same trace. *)
Theorem pick_ignores_completion_order (env : Collaborators) (st : SessionState)
    (order1 order2 : list nat) :
  (forall assets, launchImageLibrary env = Returns (Some assets) ->
     order1 ≡ₚ seq 0 (length assets) /\ order2 ≡ₚ seq 0 (length assets)) ->
  pickImages (with_completion_order order1 env) st
  = pickImages (with_completion_order order2 env) st.
Proof.
  intros Horders.
  destruct (requestStoragePermission_trace env st) as (granted & tr & Hrun & _).
  rewrite (pickImages_paths (with_completion_order order1 env) st granted tr Hrun).
  rewrite (pickImages_paths (with_completion_order order2 env) st granted tr Hrun).
  destruct granted; [|done]. cbn [launchImageLibrary with_completion_order].
  destruct (launchImageLibrary env) as [[assets|]|e] eqn:Hlaunch; [|done..].
  destruct (Horders assets eq_refl) as [H1 H2].
  cbn [TextRecognition_recognize completion_order with_completion_order].
  by rewrite (extractAll_by_outcomes _ _ _ H1), (extractAll_by_outcomes _ _ _ H2).
Qed.

Lemma pick_ignores_completion_order_witness :
  pickImages (sample_env [photo1; photo2; photo3] [2; 0; 1]) one_photo_state
  = pickImages (sample_env [photo1; photo2; photo3] [0; 1; 2]) one_photo_state.
Proof.
  apply (pick_ignores_completion_order (sample_env [photo1; photo2; photo3] [])
           one_photo_state [2; 0; 1] [0; 1; 2]).
  intros assets [= <-]. split; [|done].
  apply perm_trans with [0; 2; 1]; [apply perm_swap|apply perm_skip, perm_swap].
Defined.

(** ** [exportToPDF], path by path *)

Lemma exportToPDF_paths (env : Collaborators) (st : SessionState) :
  exportToPDF env st =
    if length (selectedImages st) =? 0 then
      (Normal tt, set_loading false st,
       [AlertAlert "Thông báo" "Vui lòng chọn ít nhất một ảnh"; SetLoading false])
    else
      let options := exportOptions env (generateHTMLContent (selectedImages st)) in
      match RNHTMLtoPDF_convert env options with
      | Returns pdf_filePath =>
          match truthy_path pdf_filePath with
          | Some filePath =>
              let shown :=
                [SetLoading true; Convert options;
                 AlertAlert "Thành công" ("File PDF đã được lưu tại:" +:+ nl +:+ filePath);
                 ClipboardSetString filePath] in
              match Clipboard_setString env filePath with
              | Returns _ =>
                  (Normal tt, set_loading false st, shown ++ [SetLoading false])
              | Throws _ =>
                  (Normal tt, set_loading false st,
                   shown ++ [ConsoleError "Error exporting PDF:";
                             AlertAlert "Lỗi" "Không thể tạo file PDF";
                             SetLoading false])
              end
          | None =>
              (Normal tt, set_loading false st,
               [SetLoading true; Convert options; SetLoading false])
          end
      | Throws _ =>
          (Normal tt, set_loading false st,
           [SetLoading true; Convert options;
            ConsoleError "Error exporting PDF:";
            AlertAlert "Lỗi" "Không thể tạo file PDF";
            SetLoading false])
      end.
Proof.
  unfold exportToPDF. unfold_task. unfold set_loading.
  destruct (length (selectedImages st) =? 0); cbn; [done|].
  destruct (RNHTMLtoPDF_convert env _) as [filePath|e]; cbn; [|done].
  destruct (truthy_path filePath) as [path|]; cbn; [|done].
  destruct (Clipboard_setString env path) as [[]|e]; cbn; done.
Qed.

Lemma exportToPDF_convert_calls (env : Collaborators) (st : SessionState) :
  selectedImages st <> [] ->
  convert_calls (trace_of (exportToPDF env st))
  = [exportOptions env (generateHTMLContent (selectedImages st))].
Proof.
  intros Hsome. rewrite exportToPDF_paths.
  destruct (selectedImages st) as [|image images] eqn:Himages; [done|].
  cbn [length Nat.eqb]. cbv zeta.
  destruct (RNHTMLtoPDF_convert env _) as [filePath|e]; [|done].
  destruct (truthy_path filePath) as [path|]; [|done].
  by destruct (Clipboard_setString env path).
Qed.

(** X10. With at least one image selected, [exportToPDF] calls the
    converter exactly once, whatever happens afterwards: on the document
    composed from the selected images, for a page of 595 by 842 without
    padding, into [Documents] on iOS and [Download] elsewhere, under a file
    name made from the current time. *)
Theorem export_converts_selected_images (env : Collaborators) (st : SessionState) :
  selectedImages st <> [] ->
  convert_calls (trace_of (exportToPDF env st))
  = [ {| html := generateHTMLContent (selectedImages st);
         fileName := "images_" +:+ pretty (Date_now env);
         directory := match Platform_OS env with ios => "Documents" | _ => "Download" end;
         height := 842; width := 595; padding := 0 |} ].
Proof. apply exportToPDF_convert_calls. Qed.

Lemma export_converts_selected_images_witness :
  convert_calls (trace_of (exportToPDF (ios_env (Returns None) (Returns None) (Returns tt))
                                       one_photo_state))
  = [ {| html := generateHTMLContent [photo1];
         fileName := "images_1730000000000";
         directory := "Documents";
         height := 842; width := 595; padding := 0 |} ].
Proof.
  apply (export_converts_selected_images
           (ios_env (Returns None) (Returns None) (Returns tt)) one_photo_state).
  discriminate.
Defined.

(** X11. When the converter hands back a file path and the clipboard takes
    it, the user sees one notice, which ends with that path, and the same
    path is what is put on the clipboard. *)
Theorem export_success (env : Collaborators) (st : SessionState) (filePath : string) :
  selectedImages st <> [] ->
  RNHTMLtoPDF_convert env (exportOptions env (generateHTMLContent (selectedImages st)))
  = Returns (Some filePath) ->
  filePath <> "" ->
  Clipboard_setString env filePath = Returns tt ->
  alerts (trace_of (exportToPDF env st))
  = [("Thành công", "File PDF đã được lưu tại:" +:+ nl +:+ filePath)]
  /\ clipboard_calls (trace_of (exportToPDF env st)) = [filePath].
Proof.
  intros Hsome Hconv Hpath Hclip. rewrite exportToPDF_paths.
  destruct (selectedImages st) as [|image images] eqn:Himages; [done|].
  cbn [length Nat.eqb]. cbv zeta. rewrite Hconv.
  unfold truthy_path. destruct (decide (filePath = "")); [done|].
  by rewrite Hclip.
Qed.

Lemma export_success_witness :
  alerts (trace_of (exportToPDF (sample_env [] []) one_photo_state))
  = [("Thành công", "File PDF đã được lưu tại:" +:+ nl +:+ "/storage/Download/images_1.pdf")]
  /\ clipboard_calls (trace_of (exportToPDF (sample_env [] []) one_photo_state))
     = ["/storage/Download/images_1.pdf"].
Proof.
  apply (export_success (sample_env [] []) one_photo_state "/storage/Download/images_1.pdf");
    (reflexivity || discriminate).
Defined.

(** X12. A clipboard failure after a successful conversion is reported as a
    failed export: the user sees the success notice with the path and then
    the notice that the PDF could not be created. *)
Theorem export_clipboard_failure (env : Collaborators) (st : SessionState)
    (filePath : string) (e : JsError) :
  selectedImages st <> [] ->
  RNHTMLtoPDF_convert env (exportOptions env (generateHTMLContent (selectedImages st)))
  = Returns (Some filePath) ->
  filePath <> "" ->
  Clipboard_setString env filePath = Throws e ->
  result_of (exportToPDF env st) = Normal tt
  /\ alerts (trace_of (exportToPDF env st))
     = [("Thành công", "File PDF đã được lưu tại:" +:+ nl +:+ filePath);
        ("Lỗi", "Không thể tạo file PDF")].
Proof.
  intros Hsome Hconv Hpath Hclip. rewrite exportToPDF_paths.
  destruct (selectedImages st) as [|image images] eqn:Himages; [done|].
  cbn [length Nat.eqb]. cbv zeta. rewrite Hconv.
  unfold truthy_path. destruct (decide (filePath = "")); [done|].
  by rewrite Hclip.
Qed.

Lemma export_clipboard_failure_witness :
  alerts (trace_of (exportToPDF
                      (ios_env (Returns None) (Returns (Some "/Documents/images_1.pdf"))
                               (Throws (Error "clipboard unavailable")))
                      one_photo_state))
  = [("Thành công", "File PDF đã được lưu tại:" +:+ nl +:+ "/Documents/images_1.pdf");
     ("Lỗi", "Không thể tạo file PDF")].
Proof.
  apply (export_clipboard_failure
           (ios_env (Returns None) (Returns (Some "/Documents/images_1.pdf"))
                    (Throws (Error "clipboard unavailable")))
           one_photo_state "/Documents/images_1.pdf" (Error "clipboard unavailable"));
    (reflexivity || discriminate).
Defined.

(** X13. When the converter returns without a file path (none, or an empty
    one), [exportToPDF] ends without telling the user anything and without
    touching the clipboard. *)
Theorem export_without_path_is_silent (env : Collaborators) (st : SessionState)
    (pdf_filePath : option string) :
  selectedImages st <> [] ->
  RNHTMLtoPDF_convert env (exportOptions env (generateHTMLContent (selectedImages st)))
  = Returns pdf_filePath ->
  pdf_filePath = None \/ pdf_filePath = Some "" ->
  result_of (exportToPDF env st) = Normal tt
  /\ alerts (trace_of (exportToPDF env st)) = []
  /\ clipboard_calls (trace_of (exportToPDF env st)) = [].
Proof.
  intros Hsome Hconv Hpath. rewrite exportToPDF_paths.
  destruct (selectedImages st) as [|image images] eqn:Himages; [done|].
  cbn [length Nat.eqb]. cbv zeta. rewrite Hconv.
  by destruct Hpath as [-> | ->].
Qed.

Lemma export_without_path_is_silent_witness :
  alerts (trace_of (exportToPDF (ios_env (Returns None) (Returns (Some "")) (Returns tt))
                                one_photo_state)) = [].
Proof.
  apply (export_without_path_is_silent
           (ios_env (Returns None) (Returns (Some "")) (Returns tt)) one_photo_state (Some ""));
    [discriminate|reflexivity|by right].
Defined.

(** X14. When the converter fails, the user sees the single notice that
    the PDF could not be created, and the clipboard is left alone. *)
Theorem export_conversion_failure (env : Collaborators) (st : SessionState) (e : JsError) :
  selectedImages st <> [] ->
  RNHTMLtoPDF_convert env (exportOptions env (generateHTMLContent (selectedImages st)))
  = Throws e ->
  result_of (exportToPDF env st) = Normal tt
  /\ alerts (trace_of (exportToPDF env st)) = [("Lỗi", "Không thể tạo file PDF")]
  /\ clipboard_calls (trace_of (exportToPDF env st)) = [].
Proof.
  intros Hsome Hconv. rewrite exportToPDF_paths.
  destruct (selectedImages st) as [|image images] eqn:Himages; [done|].
  cbn [length Nat.eqb]. cbv zeta. by rewrite Hconv.
Qed.

Lemma export_conversion_failure_witness :
  alerts (trace_of (exportToPDF (ios_env (Returns None) (Throws (Error "disk full")) (Returns tt))
                                one_photo_state))
  = [("Lỗi", "Không thể tạo file PDF")].
Proof.
  apply (export_conversion_failure
           (ios_env (Returns None) (Throws (Error "disk full")) (Returns tt))
           one_photo_state (Error "disk full")); [discriminate|reflexivity].
Defined.

(** ** Which handler talks to which collaborator *)

Lemma recognize_events_silent (assets : list ImageAsset) :
  alerts (map (fun asset => Recognize (uri asset)) assets) = []
  /\ convert_calls (map (fun asset => Recognize (uri asset)) assets) = []
  /\ clipboard_calls (map (fun asset => Recognize (uri asset)) assets) = [].
Proof. induction assets as [|asset assets IH]; [done|]. exact IH. Qed.

(** X15. [pickImages] never calls the converter or the clipboard, and
    [exportToPDF] never asks for a permission, opens the picker or
    recognizes text: the PDF is written without a permission request of
    its own. *)
Theorem handlers_keep_to_their_collaborators (env : Collaborators) (st : SessionState) :
  convert_calls (trace_of (pickImages env st)) = []
  /\ clipboard_calls (trace_of (pickImages env st)) = []
  /\ permission_requests (trace_of (exportToPDF env st)) = []
  /\ recognize_calls (trace_of (exportToPDF env st)) = []
  /\ LaunchImageLibrary ∉ trace_of (exportToPDF env st).
Proof.
  assert (Hpick : convert_calls (trace_of (pickImages env st)) = []
                  /\ clipboard_calls (trace_of (pickImages env st)) = []).
  { destruct (requestStoragePermission_trace env st) as (granted & tr & Hrun & Hev).
    rewrite (pickImages_paths env st granted tr Hrun).
    apply gate_events_silent in Hev as (_ & _ & Hconv & Hclip & _).
    destruct granted;
      [destruct (launchImageLibrary env) as [[assets|]|e];
       [destruct (recognize_events_silent assets) as (_ & Hc1 & Hc2);
        destruct (extractAll _ _ assets)|..]|];
      cbv zeta; unfold trace_of; cbn [snd];
      rewrite ?convert_calls_app, ?clipboard_calls_app, ?Hconv, ?Hclip, ?Hc1, ?Hc2;
      by split. }
  destruct Hpick as [Hconv Hclip]. split_and!; [done..| | |].
  all: rewrite exportToPDF_paths;
       destruct (length (selectedImages st) =? 0);
       [|cbv zeta; destruct (RNHTMLtoPDF_convert env _) as [filePath|e];
         [destruct (truthy_path filePath) as [path|];
          [destruct (Clipboard_setString env path)|]|]];
       try reflexivity.
  all: unfold trace_of; cbn [snd app]; rewrite !not_elem_of_cons;
       split_and!; try discriminate; apply not_elem_of_nil.
Qed.

(** ** The rendered controls *)

(** X16. The notice that asks for at least one image cannot be brought up
    from the screen: the export button is disabled while no image is
    selected, so no press on any control shows it. *)
Theorem empty_selection_notice_unreachable (env : Collaborators) (c : control)
    (st : SessionState) :
  ("Thông báo", "Vui lòng chọn ít nhất một ảnh") ∉ alerts (trace_of (press env c st)).
Proof.
  unfold press.
  destruct (rendered st c && negb (disabled st c)) eqn:Hon; [|apply not_elem_of_nil].
  destruct c; cbn [onPress].
  - destruct (requestStoragePermission_trace env st) as (granted & tr & Hrun & Hev).
    rewrite (pickImages_paths env st granted tr Hrun).
    apply gate_events_silent in Hev as (_ & Halerts & _).
    destruct granted;
      [destruct (launchImageLibrary env) as [[assets|]|e];
       [destruct (recognize_events_silent assets) as (Ha & _);
        destruct (extractAll _ _ assets)|..]|];
      cbv zeta; unfold trace_of; cbn [snd];
      rewrite ?alerts_app, ?Halerts, ?Ha; cbn;
      rewrite ?not_elem_of_cons; split_and?; try discriminate; apply not_elem_of_nil.
  - cbn in Hon. apply negb_true_iff, orb_false_iff in Hon as [_ Hsome].
    rewrite exportToPDF_paths, Hsome. cbv zeta.
    destruct (RNHTMLtoPDF_convert env _) as [filePath|e];
      [destruct (truthy_path filePath) as [path|];
       [destruct (Clipboard_setString env path)|]|];
      cbn; rewrite ?not_elem_of_cons; split_and?; try discriminate; apply not_elem_of_nil.
  - cbn. apply not_elem_of_nil.
Qed.

(** X17. [clearResults] empties images and texts and leaves the busy flag
    alone; clearing again changes nothing, and on the cleared screen the
    export button and the clear button do nothing. *)
Theorem clear_resets_results (env : Collaborators) (st : SessionState) :
  state_of (clearResults st) = with_results [] [] (loading st)
  /\ state_of (clearResults (state_of (clearResults st))) = state_of (clearResults st)
  /\ press env ExportButton (state_of (clearResults st))
     = (Normal tt, state_of (clearResults st), [])
  /\ press env ClearButton (state_of (clearResults st))
     = (Normal tt, state_of (clearResults st), []).
Proof.
  split_and!; try reflexivity.
  unfold press. cbn. by rewrite orb_true_r.
Qed.

(** What every state the screen is left in satisfies. *)
Lemma reachable_settled (st : SessionState) :
  reachable st ->
  loading st = false /\ (extractedTexts st <> [] -> selectedImages st <> []).
Proof.
  induction 1 as [|st env c _ [IHbusy IHshown] Hdone]; [done|].
  unfold press in *.
  destruct (rendered st c && negb (disabled st c)); [|done].
  destruct c; cbn [onPress] in *.
  - destruct (requestStoragePermission_trace env st) as (granted & tr & Hrun & _).
    rewrite (pickImages_paths env st granted tr Hrun) in *.
    destruct granted; [|done].
    destruct (launchImageLibrary env) as [[assets|]|e]; [|done..].
    destruct (extractAll _ _ assets) as [values remaining|texts|e] eqn:Hbatch.
    + done.
    + apply extractAll_fulfilled in Hbatch as ->. split; [done|].
      cbn. by destruct assets.
    + split; [done|]. cbn. intros _ ->. by rewrite extractAll_nil in Hbatch.
  - destruct (exportToPDF_runs env st) as (tr & Hrun & _).
    unfold state_of. by rewrite Hrun.
  - done.
Qed.

Lemma one_photo_reachable : reachable one_photo_state.
Proof.
  change one_photo_state
    with (state_of (press (sample_env [photo1] [0]) PickButton initialState)).
  by apply reachable_press; [apply reachable_init|].
Qed.

(** X18. The screen is never left busy: in every state reached by presses
    whose handlers ran to their end, the busy flag is false, so the pick
    button is enabled again. *)
Theorem reachable_not_busy (st : SessionState) :
  reachable st -> loading st = false /\ disabled st PickButton = false.
Proof. intros [Hbusy _]%reachable_settled. by split. Qed.

Lemma reachable_not_busy_witness :
  loading one_photo_state = false /\ disabled one_photo_state PickButton = false.
Proof. apply (reachable_not_busy one_photo_state), one_photo_reachable. Defined.



(** ** More on the composed document *)

(** X20. What the converter is given is a document with exactly one page
    block per selected image, in order, and a forced page break after each
    block but the last (for well-formed assets). *)
Theorem export_document_pages (env : Collaborators) (st : SessionState) :
  selectedImages st <> [] ->
  well_formed_assets (selectedImages st) ->
  exists options,
    convert_calls (trace_of (exportToPDF env st)) = [options]
    /\ (parse (html options) ≫= body_elements)
       = Some (map page_block (selectedImages st))
    /\ breaks_of (html options) = Some (breaks_between (length (selectedImages st))).
Proof.
  intros Hsome Hwf. eexists. split; [by apply exportToPDF_convert_calls|].
  cbn [html exportOptions]. unfold breaks_of.
  rewrite (parse_generateHTMLContent _ Hwf). cbn [mbind option_bind].
  split; [|apply page_breaks_document].
  unfold document. by rewrite body_elements_document_of, child_elements_body.
Qed.

Lemma export_document_pages_witness :
  exists options,
    convert_calls (trace_of (exportToPDF (sample_env [] [])
                                         (with_results [photo1; photo2] [] false)))
    = [options]
    /\ (parse (html options) ≫= body_elements)
       = Some [page_block photo1; page_block photo2]
    /\ breaks_of (html options) = Some [true; false].
Proof.
  apply (export_document_pages (sample_env [] []) (with_results [photo1; photo2] [] false)).
  - discriminate.
  - repeat constructor.
Defined.

Lemma pageTemplate_dataURI (image : ImageAsset) :
  pageTemplate image = templateBeforeURI +:+ dataURI image +:+ templateClose.
Proof.
  unfold dataURI. rewrite !string_app_assoc. reflexivity.
Qed.

Lemma pagesText_dataURI (images : list ImageAsset) :
  pagesText images
  = foldr (fun u s => (templateBeforeURI +:+ u +:+ templateClose) +:+ s) ""
          (map dataURI images).
Proof.
  induction images as [|image images IH]; [done|].
  cbn [pagesText foldr map]. fold (pagesText images).
  by rewrite IH, pageTemplate_dataURI.
Qed.

Lemma page_blocks_inj (xs : list ImageAsset) : forall ys,
  map page_block xs = map page_block ys -> map dataURI xs = map dataURI ys.
Proof.
  induction xs as [|x xs IH]; intros [|y ys] Heq; try done.
  change (page_block x :: map page_block xs = page_block y :: map page_block ys) in Heq.
  change (dataURI x :: map dataURI xs = dataURI y :: map dataURI ys).
  unfold page_block in Heq at 1 3.
  f_equal; [congruence|]. apply IH. congruence.
Qed.

(** X21. The composed text depends on the images through their data URIs
    only, and keeps them apart: two well-formed selections give the same
    text exactly when they have the same data URIs in the same order (the
    [uri] of an asset plays no part). *)
Theorem document_determined_by_dataURIs (xs ys : list ImageAsset) :
  well_formed_assets xs -> well_formed_assets ys ->
  generateHTMLContent xs = generateHTMLContent ys <-> map dataURI xs = map dataURI ys.
Proof.
  intros Hxs Hys. split.
  - intros Heq. apply page_blocks_inj.
    assert (Hdoc : parse (generateHTMLContent xs) ≫= body_elements
                   = parse (generateHTMLContent ys) ≫= body_elements) by by rewrite Heq.
    rewrite !parse_generateHTMLContent in Hdoc by done. cbn [mbind option_bind] in Hdoc.
    unfold document in Hdoc.
    rewrite !body_elements_document_of, !child_elements_body in Hdoc.
    by injection Hdoc.
  - intros Heq. by rewrite !generateHTMLContent_text, !pagesText_dataURI, Heq.
Qed.

Lemma document_determined_by_dataURIs_witness :
  generateHTMLContent [photo1; photo2] = generateHTMLContent [photo1; photo3]
  <-> map dataURI [photo1; photo2] = map dataURI [photo1; photo3].
Proof.
  apply (document_determined_by_dataURIs [photo1; photo2] [photo1; photo3]);
    repeat constructor.
Defined.

(** ** Lines *)

Lemma split_lines_line (line : string) : forall s first rest,
  line_feed_free line = true ->
  split_lines s = first :: rest ->
  split_lines (line +:+ s) = (line +:+ first) :: rest.
Proof.
  induction line as [|c line IH]; intros s first rest Hfree Hs; [exact Hs|].
  cbn [line_feed_free] in Hfree. apply andb_true_iff in Hfree as [Hc Hfree].
  apply negb_true_iff in Hc.
  rewrite !string_app_cons. cbn [split_lines]. by rewrite Hc, (IH s first rest Hfree Hs).
Qed.

Lemma split_lines_separated (lines : list string) : forall line,
  line_feed_free line = true ->
  Forall (fun l => line_feed_free l = true) lines ->
  split_lines (line +:+ separated nl lines) = line :: lines.
Proof.
  induction lines as [|next lines IH]; intros line Hline Hlines.
  - cbn [separated]. rewrite (split_lines_line line "" "" []) by done.
    by rewrite string_app_nil_r.
  - apply Forall_cons in Hlines as [Hnext Hlines].
    cbn [separated].
    rewrite (split_lines_line line _ "" (next :: lines)) by
      (try done; change (nl +:+ next +:+ separated nl lines)
                   with (String "010" (next +:+ separated nl lines));
       cbn [split_lines]; cbn; by rewrite (IH next Hnext Hlines)).
    by rewrite string_app_nil_r.
Qed.

(** X22. [processImage] keeps the lines of an array result apart: when the
    array is not empty and no line holds a line feed, cutting the text
    block at its line feeds gives back the lines, in order. *)
Theorem normalize_keeps_lines (lines : list string) :
  lines <> [] ->
  Forall (fun line => line_feed_free line = true) lines ->
  split_lines (normalize (ResArray lines)) = lines.
Proof.
  intros Hsome Hfree. unfold normalize. rewrite join_concat.
  destruct lines as [|line lines]; [done|].
  apply Forall_cons in Hfree as [Hline Hlines].
  rewrite concat_cons. by apply split_lines_separated.
Qed.

Lemma normalize_keeps_lines_witness :
  split_lines (normalize (ResArray ["Hello"; ""; "world"])) = ["Hello"; ""; "world"].
Proof.
  apply (normalize_keeps_lines ["Hello"; ""; "world"]); [discriminate|repeat constructor].
Defined.

(** ** Order of events in a pick *)

(** X23. [pickImages] asks for the permissions before it marks the screen
    busy: its trace is that of the permission gate, which writes to no state
    cell, followed by events among which there is no permission request.
    While the permission dialogs are open the busy flag is still as it
    was. *)
Theorem pick_asks_before_busy (env : Collaborators) (st : SessionState) :
  exists rest,
    trace_of (pickImages env st) = trace_of (requestStoragePermission env st) ++ rest
    /\ state_writes (trace_of (requestStoragePermission env st)) = []
    /\ permission_requests rest = [].
Proof.
  destruct (requestStoragePermission_trace env st) as (granted & tr & Hrun & Hev).
  rewrite (pickImages_paths env st granted tr Hrun), Hrun.
  apply gate_events_silent in Hev as (_ & _ & _ & _ & Hwrites & _).
  assert (Hcalls : forall assets,
             permission_requests (map (fun asset => Recognize (uri asset)) assets) = []).
  { induction assets as [|asset assets IH]; [done|]. exact IH. }
  destruct granted;
    [destruct (launchImageLibrary env) as [[assets|]|e];
     [destruct (extractAll _ _ assets)|..]|];
    cbv zeta; unfold trace_of; cbn [snd]; rewrite <- ?app_assoc;
    eexists; (split; [reflexivity|]); (split; [exact Hwrites|]);
    unfold permission_requests; rewrite ?omap_app; cbn;
    try (fold (permission_requests (map (fun asset => Recognize (uri asset)) assets));
         rewrite Hcalls); done.
Qed.

